(** * Container analysis report: a shallow embedding of [main.py]

    The script reads shipping-container spreadsheets, cleans the importer
    names, derives typed fields, builds four grouped tables and writes five
    sheets.  The pandas and rapidfuzz primitives the script calls (the
    numeric and date parsers, [str()] of a non-string scalar, the sum of a
    group, the [token_sort_ratio] scorer) are parameters of the development;
    everything the script itself does is a definition below.

    Strings are UTF-8 byte strings.  [lower] and [strip] act on the ASCII
    range, which is where the script's keywords live; [str_upper] also
    knows the sharp s, whose upper-case form is the two letters SS.  A
    numeric cell holds a rational, as every float64 and int64 value is one;
    the sums are those pandas computes and are not assumed to be exact. *)

From Stdlib Require Import Ascii QArith Permutation Sorted.
From stdpp Require Import gmap strings list fin_maps.

Open Scope string_scope.
Open Scope list_scope.

(** ** Text primitives *)

Module Text.

Definition is_upper_letter (c : ascii) : bool :=
  let n := nat_of_ascii c in (65 <=? n)%nat && (n <=? 90)%nat.

Definition is_lower_letter (c : ascii) : bool :=
  let n := nat_of_ascii c in (97 <=? n)%nat && (n <=? 122)%nat.

Definition is_digit (c : ascii) : bool :=
  let n := nat_of_ascii c in (48 <=? n)%nat && (n <=? 57)%nat.

(** The characters [str.strip()] removes in the ASCII range: space, tab to
    carriage return, and the four separators 28 to 31.  The whitespace
    characters outside ASCII, the no-break space among them, are not
    modelled and count as ordinary characters. *)
Definition is_space (c : ascii) : bool :=
  let n := nat_of_ascii c in
  (n =? 32)%nat || ((9 <=? n)%nat && (n <=? 13)%nat)
  || ((28 <=? n)%nat && (n <=? 31)%nat).

Definition upper_char (c : ascii) : ascii :=
  if is_lower_letter c then ascii_of_nat (nat_of_ascii c - 32) else c.

Definition lower_char (c : ascii) : ascii :=
  if is_upper_letter c then ascii_of_nat (nat_of_ascii c + 32) else c.

Fixpoint map_chars (f : ascii -> ascii) (s : string) : string :=
  match s with
  | EmptyString => EmptyString
  | String c r => String (f c) (map_chars f r)
  end.

(** The ASCII letters upper-cased, and lower-cased ([str.lower()]); every
    other byte is kept. *)
Definition upper : string -> string := map_chars upper_char.
Definition lower : string -> string := map_chars lower_char.

(** The two bytes of the sharp s (code point 223) in UTF-8. *)
Definition is_sharp_s (c d : ascii) : bool :=
  (nat_of_ascii c =? 195)%nat && (nat_of_ascii d =? 159)%nat.

(** The sharp s replaced by "SS". *)
Fixpoint sharp_s_to_SS (s : string) : string :=
  match s with
  | EmptyString => EmptyString
  | String c r =>
      match r with
      | String d r' =>
          if is_sharp_s c d
          then String "S" (String "S" (sharp_s_to_SS r'))
          else String c (sharp_s_to_SS r)
      | EmptyString => String c EmptyString
      end
  end.

(** [str.upper()]: the ASCII letters are upper-cased and the sharp s becomes
    "SS"; every other byte is kept, the capital sharp s (code point 7838,
    the bytes 225 186 158) among them, which has no other upper-case
    form. *)
Definition str_upper (s : string) : string := upper (sharp_s_to_SS s).

Fixpoint filter_chars (p : ascii -> bool) (s : string) : string :=
  match s with
  | EmptyString => EmptyString
  | String c r => if p c then String c (filter_chars p r) else filter_chars p r
  end.

Definition is_empty (s : string) : bool :=
  match s with EmptyString => true | _ => false end.

Fixpoint lstrip (s : string) : string :=
  match s with
  | EmptyString => EmptyString
  | String c r => if is_space c then lstrip r else s
  end.

Fixpoint rstrip (s : string) : string :=
  match s with
  | EmptyString => EmptyString
  | String c r =>
      let r' := rstrip r in
      if is_space c && is_empty r' then EmptyString else String c r'
  end.

(** [str.strip()]. *)
Definition strip (s : string) : string := rstrip (lstrip s).

(** [k in s] for strings. *)
Fixpoint contains (k s : string) : bool :=
  String.prefix k s ||
  match s with
  | EmptyString => false
  | String _ r => contains k r
  end.

(** The class [[A-Z0-9 ]] of the regular expression on line 29. *)
Definition in_keep_class (c : ascii) : bool :=
  is_upper_letter c || is_digit c || (nat_of_ascii c =? 32)%nat.

(** [str.replace(r'[^A-Z0-9 ]', '', regex=True)]. *)
Definition strip_class : string -> string := filter_chars in_keep_class.

End Text.

(** ** Data model *)

Inductive month :=
  | Jan | Feb | Mar | Apr | May | Jun | Jul | Aug | Sep | Oct | Nov | Dec.

Record date := { year : Z; mon : month; day : nat }.

#[local] Set Warnings "-register-all".

(** A cell of a data frame.  [NaN] is the one missing value (pandas' NaN and
    NaT); [Lst] is the Python list held by the ["Products List"] column. *)
Inductive cell :=
  | NaN
  | Str (s : string)
  | Num (q : Q)
  | Ts (d : date)
  | Lst (l : list cell).

Inductive dtype := DNumeric | DDatetime | DObject.

(** A data frame: the ordered columns with their dtype, and the rows.  A row
    maps a column label to its cell; a label without a binding reads as
    [NaN], which is what [pd.concat] leaves in a column a file did not
    have. *)
Record frame := {
  columns : list (string * dtype);
  rows : list (gmap string cell)
}.

Definition get (r : gmap string cell) (c : string) : cell :=
  default NaN (r !! c).

Definition isna (c : cell) : bool :=
  match c with NaN => true | _ => false end.

Definition has_column (c : string) (df : frame) : bool :=
  existsb (fun cd => String.eqb (fst cd) c) (columns df).

Definition col_dtype (df : frame) (c : string) : option dtype :=
  snd <$> List.find (fun cd => String.eqb (fst cd) c) (columns df).

(** [pd.api.types.is_numeric_dtype(df[col])]. *)
Definition is_numeric_dtype (df : frame) (c : string) : bool :=
  match col_dtype df c with Some DNumeric => true | _ => false end.

Fixpoint set_dtype (c : string) (d : dtype) (cols : list (string * dtype))
  : list (string * dtype) :=
  match cols with
  | [] => [(c, d)]
  | (c', d') :: rest =>
      if String.eqb c' c then (c', d) :: rest else (c', d') :: set_dtype c d rest
  end.

(** The row [r] with the cell of column [c] set to [f r]. *)
Definition set_cell (c : string) (f : gmap string cell -> cell)
    (r : gmap string cell) : gmap string cell :=
  <[c := f r]> r.

(** [df[c] = values], for values computed row by row: an existing column
    keeps its position, a new one is appended. *)
Definition assign (c : string) (d : dtype) (f : gmap string cell -> cell)
    (df : frame) : frame :=
  {| columns := set_dtype c d (columns df);
     rows := set_cell c f <$> rows df |}.

(** The pandas and rapidfuzz primitives the script calls. *)
Class Library := {
  (** the date [pd.to_datetime] reads in a cell; [None] when it reads none
      (the cell is missing, or holds no date) *)
  to_datetime : cell -> option date;
  (** the number [pd.to_numeric] reads in a cell; [None] when it reads none *)
  to_numeric : cell -> option Q;
  (** Python's [str()] of a scalar that is neither a string nor NaN *)
  str_of : cell -> string;
  (** [groupby(...)[col].sum()] for one group: the total pandas gives for
      the cells of the summed column in the rows of the group, taken in row
      order (float64 or int64 addition, missing cells skipped) *)
  group_sum : list cell -> cell;
  (** [rapidfuzz.fuzz.token_sort_ratio], a score between 0 and 100 *)
  token_sort_ratio : string -> string -> Q
}.

(** ** Uploaded files *)

(** A header cell as [read_excel] returns it: a string, or a value that has
    no [strip] method (a number, a timestamp). *)
Inductive label := LStr (s : string) | LOther.

(** What [pd.read_excel(file, header=1)] returned: header, the dtype of each
    column, and the rows as positional cells. *)
Record table := {
  header : list (label * dtype);
  body : list (list cell)
}.

(** An uploaded file; [content = None] when [read_excel] raises. *)
Record upload := {
  file_name : string;
  content : option table
}.

Inductive event :=
  | WarnEmpty (file : string)
  | WarnMissing (file : string) (missing : list string)
  | ErrorReading (file : string)
  | Success.

Definition required_columns : list string :=
  ["Importer"; "Date"; "Master Bill Number"; "Quantity";
   "Value(USD)"; "Unit Price(USD)"; "Description"].

(** Python joins the adjacent literals ['Exporter Contact' 'Packaging type']
    into one name. *)
Definition ignore_columns_in_cleaned_sheet : list string :=
  ["HS Code Description"; "Importer Address"; "Importer Contact";
   "Exporter Address"; "Exporter ContactPackaging type";
   "Number of packages"; "Package unit"; "TEU"; "Freight fee";
   "Insurance fee"; "Loading Place"; "Unloading Place"; "Customs";
   "incoterms"; "Carrier"; "VOCC"; "Vessel Name"; "Voyage";
   "House Bill Number"; "Customs Declaration Number"].

(** ** Field derivation (lines 76 to 93) *)

Definition month_name (m : month) : string :=
  match m with
  | Jan => "January" | Feb => "February" | Mar => "March" | Apr => "April"
  | May => "May" | Jun => "June" | Jul => "July" | Aug => "August"
  | Sep => "September" | Oct => "October" | Nov => "November"
  | Dec => "December"
  end.

Definition digit_char (n : nat) : ascii := ascii_of_nat (48 + n mod 10).

(** [%d]: the day of the month on two digits. *)
Definition two_digits (n : nat) : string :=
  String (digit_char (n / 10)) (String (digit_char n) EmptyString).

(** [strftime('%B%d')]. *)
Definition strftime_Bd (d : date) : string :=
  month_name (mon d) +:+ two_digits (day d).

(** Elementwise [+] of two string columns: missing on either side gives
    missing. *)
Definition str_add (a b : cell) : cell :=
  match a, b with
  | Str x, Str y => Str (x +:+ y)
  | _, _ => NaN
  end.

(** [fillna]: a missing cell takes the cell of the other column. *)
Definition fillna (a b : cell) : cell :=
  if isna a then b else a.

Definition opt_cell {A} (f : A -> cell) (o : option A) : cell :=
  match o with Some x => f x | None => NaN end.

Section Derivation.
Context `{Library}.

(** [.astype(str)] at one cell. *)
Definition astype_str (c : cell) : string :=
  match c with
  | Str s => s
  | NaN => "nan"
  | _ => str_of c
  end.

(** Line 77. *)
Definition clean_importer (c : cell) : string :=
  Text.str_upper (Text.strip (astype_str c)).

(** Line 29: the normalized spelling of an importer name. *)
Definition normalize_name (c : cell) : string :=
  Text.strip (Text.strip_class (Text.str_upper (astype_str c))).

(** Line 83: [.astype(str).replace("nan", np.nan)]. *)
Definition bill_or_nan (c : cell) : cell :=
  let s := astype_str c in
  if String.eqb s "nan" then NaN else Str s.

(** Lines 80 to 93, one assignment per line of the script. *)
Definition derive_fields (df : frame) : frame :=
  let df := assign "Date" DDatetime
              (fun r => opt_cell Ts (to_datetime (get r "Date"))) df in
  let df := assign "Date_str" DObject
              (fun r => match get r "Date" with
                        | Ts d => Str (strftime_Bd d)
                        | _ => NaN
                        end) df in
  let df := assign "Master Bill Number" DObject
              (fun r => bill_or_nan (get r "Master Bill Number")) df in
  let df := assign "Master Bill Number" DObject
              (fun r => fillna (get r "Master Bill Number")
                          (str_add (str_add (get r "Importer") (Str " "))
                                   (get r "Date_str"))) df in
  let df := assign "Unique Master Bill Number" DObject
              (fun r => Str (Text.strip
                               (astype_str (get r "Master Bill Number")))) df in
  let df := assign "Container Name" DObject
              (fun r => get r "Unique Master Bill Number") df in
  let df := assign "Quantity" DNumeric
              (fun r => opt_cell Num (to_numeric (get r "Quantity"))) df in
  let df := assign "Weight (kgs)" DNumeric
              (fun r => get r "Quantity") df in
  let df := assign "Value (USD)" DNumeric
              (fun r => opt_cell Num (to_numeric (get r "Value(USD)"))) df in
  let df := assign "Unit Price (USD)" DNumeric
              (fun r => opt_cell Num (to_numeric (get r "Unit Price(USD)"))) df in
  assign "Shipment Cost" DNumeric (fun r => get r "Value (USD)") df.

End Derivation.

(** ** Name normalizer (lines 28 to 48) *)

(** [Series.unique()]: the distinct values, in first-seen order. *)
Fixpoint unique_from {A} (eqb : A -> A -> bool) (seen l : list A) : list A :=
  match l with
  | [] => []
  | x :: r =>
      if existsb (eqb x) seen then unique_from eqb seen r
      else x :: unique_from eqb (x :: seen) r
  end.

Definition unique_by {A} (eqb : A -> A -> bool) (l : list A) : list A :=
  unique_from eqb [] l.

Definition unique : list string -> list string := unique_by String.eqb.

Section Normalizer.
Context `{Library}.

(** [process.extractOne(query, c :: cs, scorer=fuzz.token_sort_ratio)]:
    the choices are scored from left to right and a later choice replaces
    the best so far only with a strictly higher score. *)
Definition extractOne (query c : string) (cs : list string) : string * Q :=
  fold_left
    (fun best choice =>
       let score := token_sort_ratio query choice in
       if Qle_bool score (snd best) then best else (choice, score))
    cs (c, token_sort_ratio query c).

(** One turn of the loop on line 34, on the pair
    [(unique_names, name_mapping)]. *)
Definition dedup_step (similarity_threshold : Q)
    (st : list string * gmap string string) (name : string)
  : list string * gmap string string :=
  match fst st with
  | [] => ([name], <[name := name]> (snd st))
  | c :: cs =>
      let found := extractOne name c cs in
      if Qle_bool similarity_threshold (snd found)
      then (fst st, <[name := fst found]> (snd st))
      else (fst st ++ [name], <[name := name]> (snd st))
  end.

Definition dedup_loop (similarity_threshold : Q) (names : list string)
  : list string * gmap string string :=
  fold_left (dedup_step similarity_threshold) names ([], ∅).

Definition column_strings (c : string) (df : frame) : list string :=
  (fun r => astype_str (get r c)) <$> rows df.

(** The function returns the frame; the two locals are dropped. *)
Definition normalize_importer_names (df : frame) (similarity_threshold : Q)
  : frame :=
  let df := assign "Normalized_Importer" DObject
              (fun r => Str (normalize_name (get r "Importer"))) df in
  let loop :=
    dedup_loop similarity_threshold
      (unique (column_strings "Normalized_Importer" df)) in
  let unique_names := fst loop in
  let name_mapping := snd loop in
  df.

(** Lines 77 to 93 on the unified table: the table they build when no
    statement raises ([derive_checked] below says when one does). *)
Definition derive (df : frame) : frame :=
  let df := assign "Importer" DObject
              (fun r => Str (clean_importer (get r "Importer"))) df in
  let df := normalize_importer_names df 90 in
  derive_fields df.

End Normalizer.

(** ** Field derivation with its exceptions *)

(** The [errors] argument of the two coercers. *)
Inductive errors_mode := errors_raise | errors_coerce.

(** [df[c]] is a column when the label [c] stands exactly once in the
    header.  An absent label raises [KeyError]; a label that stands twice
    gives a table, on which [.str], [pd.to_datetime], [pd.to_numeric] and
    [fillna] raise. *)
Definition is_column (df : frame) (c : string) : bool :=
  (length (List.filter (String.eqb c) (fst <$> columns df)) =? 1)%nat.




Section Checked.
Context `{Library}.


(** [pd.to_numeric(_, errors=errors)] at one cell. *)
Definition to_numeric_errors (errors : errors_mode) (c : cell) : option cell :=
  match to_numeric c with
  | Some q => Some (Num q)
  | None =>
      if isna c then Some NaN
      else match errors with errors_coerce => Some NaN | errors_raise => None end
  end.



End Checked.

(** ** File ingestor (lines 51 to 76) *)

Definition is_nil {A} (l : list A) : bool :=
  match l with [] => true | _ => false end.

(** [df.iloc[:, 1:]]. *)
Definition iloc_drop_first (t : table) : table :=
  {| header := tail (header t); body := tail <$> body t |}.

(** [df.empty or df.dropna(how='all').shape[0] == 0]. *)
Definition is_blank (t : table) : bool :=
  is_nil (header t) || is_nil (body t) || forallb (forallb isna) (body t).

(** [[col.strip() for col in df.columns]]; [None] when a label has no
    [strip]. *)
Fixpoint strip_labels (h : list (label * dtype)) : option (list (string * dtype)) :=
  match h with
  | [] => Some []
  | (LStr s, d) :: rest =>
      match strip_labels rest with
      | Some cols => Some ((Text.strip s, d) :: cols)
      | None => None
      end
  | (LOther, _) :: _ => None
  end.

Definition mem_string (c : string) (l : list string) : bool :=
  existsb (String.eqb c) l.

Definition missing_columns (cols : list (string * dtype)) : list string :=
  List.filter (fun c => negb (mem_string c (fst <$> cols))) required_columns.

(** The row of a table: each label with its cell.  Under a label that
    stands twice the row holds the first of the two cells; [is_column]
    tells such a label apart, and [derive_checked] raises on it. *)
Definition to_row (names : list string) (cells : list cell) : gmap string cell :=
  list_to_map (zip names cells).

Inductive ingested := Accepted (df : frame) | Skipped (e : event).

(** The body of the loop on line 53 for one file. *)
Definition ingest_file (f : upload) : ingested :=
  match content f with
  | None => Skipped (ErrorReading (file_name f))
  | Some t =>
      let t := iloc_drop_first t in
      if is_blank t then Skipped (WarnEmpty (file_name f))
      else
        match strip_labels (header t) with
        | None => Skipped (ErrorReading (file_name f))
        | Some cols =>
            let missing := missing_columns cols in
            if negb (is_nil missing)
            then Skipped (WarnMissing (file_name f) missing)
            else
              Accepted
                (assign "source_file" DObject (fun _ => Str (file_name f))
                   {| columns := cols;
                      rows := to_row (fst <$> cols) <$> body t |})
        end
  end.

(** The loop: the messages shown and [all_data], both in upload order. *)
Fixpoint ingest (files : list upload) : list event * list frame :=
  match files with
  | [] => ([], [])
  | f :: rest =>
      let '(events, all_data) := ingest rest in
      match ingest_file f with
      | Accepted df => (events, df :: all_data)
      | Skipped e => (e :: events, all_data)
      end
  end.

Definition merge_dtype (a b : dtype) : dtype :=
  match a, b with
  | DNumeric, DNumeric => DNumeric
  | DDatetime, DDatetime => DDatetime
  | _, _ => DObject
  end.

(** The columns so far, each with the dtype it shares with the columns of
    the same name in the next frame, followed by the columns of the next
    frame that are new. *)
Definition merge_columns (acc cols : list (string * dtype))
  : list (string * dtype) :=
  ((fun cd =>
      (fst cd,
       fold_left merge_dtype
         (snd <$> List.filter (fun x => String.eqb (fst x) (fst cd)) cols)
         (snd cd))) <$> acc)
  ++ List.filter (fun cd => negb (mem_string (fst cd) (fst <$> acc))) cols.

(** [pd.concat(all_data, ignore_index=True)]: the union of the columns in
    first-seen order, the rows of every frame in order. *)
Definition concat (dfs : list frame) : frame :=
  {| columns := fold_left (fun acc df => merge_columns acc (columns df)) dfs [];
     rows := mjoin (rows <$> dfs) |}.

(** ** Aggregator (lines 95 to 119) *)

Definition month_index (m : month) : nat :=
  match m with
  | Jan => 1 | Feb => 2 | Mar => 3 | Apr => 4 | May => 5 | Jun => 6
  | Jul => 7 | Aug => 8 | Sep => 9 | Oct => 10 | Nov => 11 | Dec => 12
  end.

Definition date_eqb (d e : date) : bool :=
  (year d =? year e)%Z && (month_index (mon d) =? month_index (mon e))%nat
  && (day d =? day e)%nat.

Definition date_leb (d e : date) : bool :=
  if (year d =? year e)%Z then
    if (month_index (mon d) =? month_index (mon e))%nat
    then (day d <=? day e)%nat
    else (month_index (mon d) <=? month_index (mon e))%nat
  else (year d <=? year e)%Z.

(** Equality of two cells as group keys: numbers by value. *)
Fixpoint cell_eqb (a b : cell) : bool :=
  match a, b with
  | NaN, NaN => true
  | Str s, Str t => String.eqb s t
  | Num p, Num q => Qeq_bool p q
  | Ts d, Ts e => date_eqb d e
  | Lst l, Lst m =>
      (fix all2 (l m : list cell) : bool :=
         match l, m with
         | [], [] => true
         | x :: l', y :: m' => cell_eqb x y && all2 l' m'
         | _, _ => false
         end) l m
  | _, _ => false
  end.

Definition kind_rank (c : cell) : nat :=
  match c with Num _ => 0 | Ts _ => 1 | Str _ => 2 | Lst _ => 3 | NaN => 4 end.

(** The order group keys are sorted in: numbers by value, strings by code
    point, and numbers before strings in a column that mixes them. *)
Definition cell_leb (a b : cell) : bool :=
  match a, b with
  | Num p, Num q => Qle_bool p q
  | Str s, Str t => String.leb s t
  | Ts d, Ts e => date_leb d e
  | _, _ => (kind_rank a <=? kind_rank b)%nat
  end.

Fixpoint key_eqb (k1 k2 : list cell) : bool :=
  match k1, k2 with
  | [], [] => true
  | a :: k1', b :: k2' => cell_eqb a b && key_eqb k1' k2'
  | _, _ => false
  end.

Fixpoint key_leb (k1 k2 : list cell) : bool :=
  match k1, k2 with
  | [], _ => true
  | _ :: _, [] => false
  | a :: k1', b :: k2' => if cell_eqb a b then key_leb k1' k2' else cell_leb a b
  end.

Fixpoint insert_by {A} (leb : A -> A -> bool) (x : A) (l : list A) : list A :=
  match l with
  | [] => [x]
  | y :: l' => if leb x y then x :: l else y :: insert_by leb x l'
  end.

(** A stable sort: rows with equal keys keep their order.  pandas sorts
    with quicksort, which may order such rows differently; the properties
    below hold for either order. *)
Definition sort_by {A} (leb : A -> A -> bool) (l : list A) : list A :=
  foldr (insert_by leb) [] l.

(** The key of a row; [groupby] leaves out a row with a missing key cell. *)
Definition key_of (by_cols : list string) (r : gmap string cell)
  : option (list cell) :=
  let k := get r <$> by_cols in
  if existsb isna k then None else Some k.

Definition group_keys (by_cols : list string) (df : frame) : list (list cell) :=
  sort_by key_leb (unique_by key_eqb (omap (key_of by_cols) (rows df))).

Definition in_group (by_cols : list string) (k : list cell)
    (r : gmap string cell) : bool :=
  match key_of by_cols r with
  | Some k' => key_eqb k k'
  | None => false
  end.

Definition group_rows (by_cols : list string) (k : list cell) (df : frame)
  : list (gmap string cell) :=
  List.filter (in_group by_cols k) (rows df).

(** [df.groupby(by_cols)[col].sum().reset_index(name=out)]: one row per
    key, holding the key and the sum pandas gives for its group. *)
Definition groupby_sum `{Library} (by_cols : list string) (col out : string)
    (df : frame) : frame :=
  {| columns := ((fun c => (c, default DObject (col_dtype df c))) <$> by_cols)
                ++ [(out, DNumeric)];
     rows := (fun k =>
                <[out := group_sum ((fun r => get r col)
                                      <$> group_rows by_cols k df)]>
                  (to_row by_cols k))
             <$> group_keys by_cols df |}.

(** [x.dropna().unique()] as a list. *)
Definition distinct_present (cs : list cell) : list cell :=
  unique_by cell_eqb (List.filter (fun c => negb (isna c)) cs).

Definition products_per_container (df : frame) : frame :=
  {| columns := [("Container Name", default DObject (col_dtype df "Container Name"));
                 ("Total Products in Container", DNumeric);
                 ("Products List", DObject)];
     rows := (fun k =>
                let products :=
                  distinct_present ((fun r => get r "Description")
                                      <$> group_rows ["Container Name"] k df) in
                <["Products List" := Lst products]>
                  (<["Total Products in Container" :=
                       Num (inject_Z (Z.of_nat (length products)))]>
                     (to_row ["Container Name"] k)))
             <$> group_keys ["Container Name"] df |}.

Definition weight_per_product `{Library} : frame -> frame :=
  groupby_sum ["Container Name"; "Description"] "Weight (kgs)" "Weight (kgs)".

Definition shipment_cost_per_container `{Library} : frame -> frame :=
  groupby_sum ["Container Name"] "Shipment Cost" "Total Shipment Cost (USD)".

Definition revenue_per_importer `{Library} : frame -> frame :=
  groupby_sum ["Importer"] "Value (USD)" "Total Value(USD) per Importer".

(** ** Report writer (lines 121 to 179) *)

Definition sort_keywords : list string := ["cost"; "revenue"; "weight"; "value"].

(** The test inside [next(...)] on line 128. *)
Definition is_sort_column (df : frame) (col : string) : bool :=
  existsb (fun k => Text.contains k (Text.lower col)) sort_keywords
  && is_numeric_dtype df col.

(** Whether cell [a] may stand before cell [b] in a descending column:
    larger numbers first, missing cells last. *)
Definition before (a b : cell) : bool :=
  match b with
  | Num y => match a with Num x => Qle_bool y x | _ => false end
  | _ => true
  end.

(** [df.sort_values(by=col, ascending=False)]. *)
Definition sort_values (col : string) (df : frame) : frame :=
  {| columns := columns df;
     rows := sort_by (fun r1 r2 => before (get r1 col) (get r2 col)) (rows df) |}.

(** [df.drop(columns=cols)]. *)
Definition drop (cols : list string) (df : frame) : frame :=
  {| columns := List.filter (fun cd => negb (mem_string (fst cd) cols)) (columns df);
     rows := (fun r => foldr delete r cols) <$> rows df |}.

(** The frame [write_sheet] hands to [to_excel].  The header style, the
    number formats and the column widths set afterwards do not change the
    cells of the sheet and are left out. *)
Definition write_sheet (df_sheet : frame) (drop_columns : option (list string))
  : frame :=
  let df_sheet :=
    match drop_columns with
    | Some ((_ :: _) as cols) =>
        drop (List.filter (fun c => has_column c df_sheet) cols) df_sheet
    | _ => df_sheet
    end in
  let sort_col := List.find (is_sort_column df_sheet) (fst <$> columns df_sheet) in
  match sort_col with
  | Some col => if Text.is_empty col then df_sheet else sort_values col df_sheet
  | None => df_sheet
  end.

Section Run.
Context `{Library}.

(** Lines 76 to 171: the five sheets of the workbook. *)
Definition report (all_data : list frame) : list (string * frame) :=
  let df := derive (concat all_data) in
  [("Cleaned Data", write_sheet df (Some ignore_columns_in_cleaned_sheet));
   ("Products per Container", write_sheet (products_per_container df) None);
   ("Weight per Product", write_sheet (weight_per_product df) None);
   ("Shipment Cost", write_sheet (shipment_cost_per_container df) None);
   ("Total Value per Importer", write_sheet (revenue_per_importer df) None)].

(** The script: the messages shown, and the workbook offered for download
    ([None] when the script stops before writing one).  This is the run in
    which no statement after the loop raises; [derive_checked] says when
    lines 77 to 93 do. *)
Definition run (uploaded_files : list upload)
  : list event * option (list (string * frame)) :=
  if is_nil uploaded_files then ([], None)
  else
    let loaded := ingest uploaded_files in
    if is_nil (snd loaded) then (fst loaded, None)
    else (fst loaded ++ [Success], Some (report (snd loaded))).

End Run.

(** ** Quantities the properties below speak about *)

(** The columns the derivation writes. *)
Definition derived_columns : list string :=
  ["Importer"; "Normalized_Importer"; "Date"; "Date_str";
   "Master Bill Number"; "Unique Master Bill Number"; "Container Name";
   "Quantity"; "Weight (kgs)"; "Value (USD)"; "Unit Price (USD)";
   "Shipment Cost"].

Definition in_container (c : string) (r : gmap string cell) : bool :=
  cell_eqb (get r "Container Name") (Str c).

(** The weights a sum over the rows of [df] of container [c] adds up. *)
Definition container_weights (c : string) (df : frame) : list cell :=
  (fun r => get r "Weight (kgs)") <$> List.filter (in_container c) (rows df).

(** The weights of the rows of container [c] that have a description. *)
Definition described_container_weights (c : string) (df : frame) : list cell :=
  (fun r => get r "Weight (kgs)")
    <$> List.filter
          (fun r => in_container c r && negb (isna (get r "Description")))
          (rows df).

(** The numbers in a list of cells added up exactly, missing cells
    skipped. *)
Definition exact_sum (cs : list cell) : Q :=
  foldr (fun c acc => match c with Num q => (q + acc)%Q | _ => acc end) 0%Q cs.

(** The sum pandas gives for the cells [cs] is the exact one. *)
Definition sums_exactly `{Library} (cs : list cell) : Prop :=
  exists q, group_sum cs = Num q /\ (q == exact_sum cs)%Q.

(** Rows [r] and [x] have the same container and the same description. *)
Definition same_product (r x : gmap string cell) : bool :=
  cell_eqb (get r "Container Name") (get x "Container Name")
  && cell_eqb (get r "Description") (get x "Description").

(** Rows [r] and [x] have the same cell in column [c]. *)
Definition same_cell (c : string) (r x : gmap string cell) : bool :=
  cell_eqb (get r c) (get x c).

(** A column the name-sort of [write_sheet] may pick: a keyword in the
    lower-cased name, and a numeric dtype. *)
Definition qualifies (df : frame) (col : string) : Prop :=
  (∃ k, k ∈ sort_keywords ∧ Text.contains k (Text.lower col) = true)
  ∧ col_dtype df col = Some DNumeric.

(** The frame [write_sheet] sorts: its argument, less the dropped columns. *)
Definition sheet_input (df_sheet : frame) (drop_columns : option (list string))
  : frame :=
  match drop_columns with
  | Some ((_ :: _) as cols) =>
      drop (List.filter (fun c => has_column c df_sheet) cols) df_sheet
  | _ => df_sheet
  end.

Definition is_warning (e : event) : bool :=
  match e with WarnEmpty _ | WarnMissing _ _ => true | _ => false end.

(** Whether every character of [s] satisfies [p]. *)
Fixpoint all_chars (p : ascii -> bool) (s : string) : bool :=
  match s with
  | EmptyString => true
  | String c r => p c && all_chars p r
  end.

Definition is_ascii (c : ascii) : bool := (nat_of_ascii c <? 128)%nat.

(** An ASCII character that is not a letter, a digit or a space. *)
Definition is_punctuation (c : ascii) : bool :=
  is_ascii c && negb (Text.in_keep_class (Text.upper_char c)).

(** Two strings that differ only by the case of ASCII letters, by ASCII
    punctuation, or by whitespace at either end. *)
Inductive differ_only : string -> string -> Prop :=
  | differ_refl s : differ_only s s
  | differ_sym s t : differ_only s t -> differ_only t s
  | differ_trans s t u : differ_only s t -> differ_only t u -> differ_only s u
  | differ_case a b s t :
      is_ascii a = true -> is_ascii b = true ->
      Text.upper_char a = Text.upper_char b ->
      differ_only (s +:+ String a t) (s +:+ String b t)
  | differ_punctuation c s t :
      is_punctuation c = true ->
      differ_only (s +:+ String c t) (s +:+ t)
  | differ_leading c s :
      Text.is_space c = true -> differ_only (String c s) s
  | differ_trailing c s :
      Text.is_space c = true -> differ_only (s +:+ String c EmptyString) s.

(** Induction on cells that reaches inside a list cell. *)
Fixpoint cell_nested_ind (P : cell -> Prop)
    (HNaN : P NaN) (HStr : ∀ s, P (Str s)) (HNum : ∀ q, P (Num q))
    (HTs : ∀ d, P (Ts d)) (HLst : ∀ l, Forall P l -> P (Lst l))
    (c : cell) : P c :=
  match c with
  | NaN => HNaN
  | Str s => HStr s
  | Num q => HNum q
  | Ts d => HTs d
  | Lst l =>
      HLst l
        ((fix all (l : list cell) : Forall P l :=
            match l with
            | [] => Stdlib.Lists.List.Forall_nil P
            | x :: l' =>
                @Stdlib.Lists.List.Forall_cons _ P x l'
                  (cell_nested_ind P HNaN HStr HNum HTs HLst x) (all l')
            end) l)
  end.

(** ** A small library instance and sample uploads, for concrete runs *)

(** A number is read in a numeric cell and a date in a timestamp, and in no
    other cell; the sample sums are small integers, which float64 adds
    exactly; two names score 100 when equal and 0 otherwise. *)
Definition sample_library : Library := {|
  to_datetime c := match c with Ts d => Some d | _ => None end;
  to_numeric c := match c with Num q => Some q | _ => None end;
  str_of _ := "?";
  group_sum cs := Num (exact_sum cs);
  token_sort_ratio a b := if String.eqb a b then 100%Q else 0%Q
|}.

(** The library [L] with another scorer in place of its own. *)
Definition with_scorer (L : Library) (scorer : string -> string -> Q)
  : Library := {|
  to_datetime := @to_datetime L;
  to_numeric := @to_numeric L;
  str_of := @str_of L;
  group_sum := @group_sum L;
  token_sort_ratio := scorer
|}.

Definition sample_header : list (label * dtype) :=
  [(LStr "Unnamed: 0", DNumeric); (LStr "Importer", DObject);
   (LStr "Date", DDatetime); (LStr "Master Bill Number", DObject);
   (LStr "Quantity", DNumeric); (LStr "Value(USD)", DNumeric);
   (LStr "Unit Price(USD)", DNumeric); (LStr "Description ", DObject)].

Definition jan5 : date := {| year := 2024; mon := Jan; day := 5 |}.

Definition sample_row (importer : string) (d bill : cell) (qty value : Q)
    (description : cell) : list cell :=
  [Num 0; Str importer; d; bill; Num qty; Num value; Num 1; description].

Definition sample_file (name : string) (body : list (list cell)) : upload :=
  {| file_name := name;
     content := Some {| header := sample_header; body := body |} |}.

(** The frame the script works on after line 76, for the given uploads. *)
Definition unified (files : list upload) : frame :=
  concat (snd (ingest files)).

(** Two records without a bill number, dated 5 January: one of importer
    ["acme"], one whose importer cell holds two spaces. *)
Definition upload_without_bills : list upload :=
  [sample_file "a.xlsx"
     [sample_row "acme" (Ts jan5) NaN 10 20 (Str "Bolts");
      sample_row "  " (Ts jan5) NaN 10 20 (Str "Nuts")]].

(** A record of importer ["Acme"] with neither bill number nor date. *)
Definition upload_without_date : list upload :=
  [sample_file "a.xlsx" [sample_row "Acme" NaN NaN 7 20 (Str "Bolts")]].

(** Two records with neither bill number nor date, of importers ["Acme"]
    and ["Globex"]. *)
Definition upload_two_undated : list upload :=
  [sample_file "a.xlsx"
     [sample_row "Acme" NaN NaN 7 20 (Str "Bolts");
      sample_row "Globex" NaN NaN 3 10 (Str "Nuts")]].



(** The sharp s and the capital sharp s, in UTF-8. *)
Definition sharp_s : string :=
  String (ascii_of_nat 195) (String (ascii_of_nat 159) EmptyString).

Definition capital_sharp_s : string :=
  String (ascii_of_nat 225)
    (String (ascii_of_nat 186) (String (ascii_of_nat 158) EmptyString)).

(** A record of container ["MB1"] weighing 5 with no description. *)
Definition upload_without_description : list upload :=
  [sample_file "a.xlsx" [sample_row "Acme" (Ts jan5) (Str "MB1") 5 20 NaN]].

(** A cost sheet of two containers, the cheaper one first. *)
Definition sample_cost_sheet : frame :=
  {| columns := [("Container Name", DObject);
                 ("Total Shipment Cost (USD)", DNumeric)];
     rows := [to_row ["Container Name"; "Total Shipment Cost (USD)"]
                [Str "MB2"; Num 200];
              to_row ["Container Name"; "Total Shipment Cost (USD)"]
                [Str "MB1"; Num 500]] |}.

(** A file that lacks the "Quantity" column, and a file that cannot be read. *)
Definition upload_missing_quantity : upload :=
  {| file_name := "b.xlsx";
     content := Some {| header := [(LStr "Unnamed: 0", DNumeric);
                                   (LStr "Importer", DObject);
                                   (LStr "Date", DDatetime)];
                        body := [[Num 0; Str "Acme"; Ts jan5]] |} |}.

Definition upload_unreadable : upload :=
  {| file_name := "c.xlsx"; content := None |}.

(** ** Further definitions: column layout *)

(** The display format [set_column] gives a column. *)
Inductive cell_format := PlainFormat | NumberFormat | DateFormat.

(** [pd.api.types.is_datetime64_any_dtype(df[col])]. *)
Definition is_datetime_dtype (df : frame) (c : string) : bool :=
  match col_dtype df c with Some DDatetime => true | _ => false end.

(** [df[col].isnull().all()]. *)
Definition column_all_null (df : frame) (c : string) : bool :=
  forallb (fun r => isna (get r c)) (rows df).

Section Layout.
Context `{Library}.

(** [df[col].astype(str).map(len).max()], the lengths counted in bytes,
    which on ASCII text is the number of characters. *)
Definition longest_cell (df : frame) (c : string) : nat :=
  foldr Nat.max 0%nat
    ((fun r => String.length (astype_str (get r c))) <$> rows df).

(** Lines 151 to 165 for one column: the width and the format passed to
    [set_column]. *)
Definition column_layout (df : frame) (value : string) : nat * cell_format :=
  let max_len :=
    (Nat.max (if column_all_null df value then 10 else longest_cell df value)
             (String.length value) + 5)%nat in
  if is_datetime_dtype df value then ((max_len + 5)%nat, DateFormat)
  else if existsb (fun keyword => Text.contains keyword (Text.lower value))
            sort_keywords
          && is_numeric_dtype df value
  then (max_len, NumberFormat)
  else (max_len, PlainFormat).

(** The loop on line 148 over the columns of the sheet as written. *)
Definition sheet_layout (df_sheet : frame) (drop_columns : option (list string))
  : list (nat * cell_format) :=
  let sheet := write_sheet df_sheet drop_columns in
  column_layout sheet <$> (fst <$> columns sheet).

End Layout.

(** A frame of one record that has only an importer. *)
Definition one_importer_frame : frame :=
  {| columns := [("Importer", DObject)];
     rows := [{[ "Importer" := Str " acme " ]}] |}.

(** A frame of one record: 5 units of "Bolts". *)
Definition one_product_frame : frame :=
  {| columns := [("Description", DObject); ("Quantity", DNumeric)];
     rows := [<["Description" := Str "Bolts"]> {[ "Quantity" := Num 5 ]}] |}.

(** Three records of container "MB1": bolts weighing 5, nuts weighing 7,
    and a record without description weighing 1. *)
Definition weighed_frame : frame :=
  {| columns := [("Container Name", DObject); ("Description", DObject);
                 ("Weight (kgs)", DNumeric)];
     rows := to_row ["Container Name"; "Description"; "Weight (kgs)"]
             <$> [[Str "MB1"; Str "Bolts"; Num 5];
                  [Str "MB1"; Str "Nuts"; Num 7];
                  [Str "MB1"; NaN; Num 1]] |}.

(** A frame of one record of container "MB1" described as "Bolts". *)
Definition one_container_frame : frame :=
  {| columns := [("Container Name", DObject); ("Description", DObject)];
     rows := [<["Container Name" := Str "MB1"]>
                {[ "Description" := Str "Bolts" ]}] |}.

(** * Properties *)

(** ** Text *)

Module TextFacts.
Import Text.

Ltac by_cases_on_char c :=
  destruct c as [[] [] [] [] [] [] [] []]; vm_compute; try reflexivity;
  try discriminate; auto.

Lemma map_chars_app f s t :
  map_chars f (s +:+ t) = map_chars f s +:+ map_chars f t.
Proof. induction s as [|c s IH]; simpl; [reflexivity | now rewrite IH]. Qed.

Lemma filter_chars_app p s t :
  filter_chars p (s +:+ t) = filter_chars p s +:+ filter_chars p t.
Proof.
  induction s as [|c s IH]; simpl; [reflexivity |].
  rewrite IH. now destruct (p c).
Qed.

Lemma upper_char_idem c : upper_char (upper_char c) = upper_char c.
Proof. by_cases_on_char c. Qed.

Lemma upper_idem s : upper (upper s) = upper s.
Proof.
  induction s as [|c s IH]; simpl; [reflexivity |].
  unfold upper in *. simpl. now rewrite upper_char_idem, IH.
Qed.

Lemma space_upper c : is_space c = true -> upper_char c = c.
Proof. by_cases_on_char c. Qed.

Lemma upper_space c : is_space (upper_char c) = is_space c.
Proof. by_cases_on_char c. Qed.

Lemma space_kept c :
  is_space c = true -> in_keep_class c = true -> c = " "%char.
Proof. by_cases_on_char c. Qed.

Lemma kept_space : in_keep_class " " = true /\ is_space " " = true.
Proof. split; reflexivity. Qed.

Lemma digit_not_space n : is_space (digit_char n) = false.
Proof.
  unfold digit_char.
  assert (Hlt : (n mod 10 < 10)%nat) by (apply Nat.mod_upper_bound; lia).
  destruct (n mod 10)%nat as [|[|[|[|[|[|[|[|[|[|k]]]]]]]]]]; try reflexivity.
  lia.
Qed.

Lemma rstrip_app_space c s : is_space c = true ->
  rstrip (s +:+ String c EmptyString) = rstrip s.
Proof.
  intros Hc. induction s as [|x s IH]; simpl.
  - now rewrite Hc.
  - now rewrite IH.
Qed.

Lemma lstrip_app_space c s : is_space c = true ->
  lstrip (s +:+ String c EmptyString)
  = if is_empty (lstrip s) then EmptyString
    else lstrip s +:+ String c EmptyString.
Proof.
  intros Hc. induction s as [|x s IH]; simpl.
  - now rewrite Hc.
  - destruct (is_space x); [exact IH | reflexivity].
Qed.

Lemma strip_leading c s : is_space c = true -> strip (String c s) = strip s.
Proof. intros Hc. unfold strip. simpl. now rewrite Hc. Qed.

Lemma strip_trailing c s : is_space c = true ->
  strip (s +:+ String c EmptyString) = strip s.
Proof.
  intros Hc. unfold strip. rewrite lstrip_app_space by exact Hc.
  destruct (lstrip s) as [|x r] eqn:E; simpl; [reflexivity |].
  change (rstrip (String x r +:+ String c EmptyString) = rstrip (String x r)).
  now apply rstrip_app_space.
Qed.

(** A string that starts and ends with a character that is not whitespace
    is left alone by [strip]. *)
Lemma rstrip_last s c : is_space c = false ->
  rstrip (s +:+ String c EmptyString) = s +:+ String c EmptyString.
Proof.
  intros Hc. induction s as [|x s IH]; simpl.
  - now rewrite Hc.
  - rewrite IH. destruct s; simpl; now rewrite andb_false_r.
Qed.

Lemma rstrip_head c r :
  rstrip (String c r) = EmptyString \/ exists r', rstrip (String c r) = String c r'.
Proof.
  simpl. destruct (is_space c && is_empty (rstrip r)); eauto.
Qed.

Lemma lstrip_head s :
  lstrip s = EmptyString
  \/ exists c r, lstrip s = String c r /\ is_space c = false.
Proof.
  induction s as [|x s IH]; simpl; [now left |].
  destruct (is_space x) eqn:E; [exact IH | right; eauto].
Qed.

Lemma strip_head s :
  strip s = EmptyString
  \/ exists c r, strip s = String c r /\ is_space c = false.
Proof.
  unfold strip. destruct (lstrip_head s) as [-> | (c & r & -> & Hc)].
  - now left.
  - destruct (rstrip_head c r) as [-> | [r' ->]]; [now left | right; eauto].
Qed.

Lemma upper_head s :
  upper s = EmptyString -> s = EmptyString.
Proof. destruct s; [reflexivity | discriminate]. Qed.

Lemma strip_fixed c r d :
  is_space c = false -> is_space d = false ->
  strip (String c r +:+ String d EmptyString)
  = String c r +:+ String d EmptyString.
Proof.
  intros Hc Hd. unfold strip.
  change (String c r +:+ String d EmptyString)
    with (String c (r +:+ String d EmptyString)) at 1.
  cbn [lstrip]. rewrite Hc.
  change (String c (r +:+ String d EmptyString))
    with (String c r +:+ String d EmptyString).
  now apply rstrip_last.
Qed.

Lemma append_assoc s t u : (s +:+ t) +:+ u = s +:+ (t +:+ u).
Proof.
  induction s as [|c s IH]; [reflexivity |].
  change (String c ((s +:+ t) +:+ u) = String c (s +:+ (t +:+ u))).
  now rewrite IH.
Qed.

Lemma strip_between c r t d :
  is_space c = false -> is_space d = false ->
  strip ((String c r +:+ t) +:+ String d EmptyString)
  = (String c r +:+ t) +:+ String d EmptyString.
Proof.
  intros Hc Hd. change (String c r +:+ t) with (String c (r +:+ t)).
  now apply strip_fixed.
Qed.

Lemma string_two_step (P : string -> Prop) :
  P EmptyString ->
  (forall c, P (String c EmptyString)) ->
  (forall c d r, P r -> P (String d r) -> P (String c (String d r))) ->
  forall s, P s.
Proof.
  intros Hnil Hone Htwo s.
  assert (Hboth : P s /\ forall c, P (String c s)).
  { induction s as [| d r [IHr IHd]]; [now split |].
    split; [apply IHd |]. intros c. apply Htwo; [exact IHr | apply IHd]. }
  exact (proj1 Hboth).
Qed.

Lemma all_chars_app p s t :
  all_chars p (s +:+ t) = all_chars p s && all_chars p t.
Proof.
  induction s as [| c s IH]; [reflexivity |].
  change (all_chars p (String c (s +:+ t))
          = all_chars p (String c s) && all_chars p t).
  cbn [all_chars]. now rewrite IH, andb_assoc.
Qed.

Lemma all_chars_impl (p q : ascii -> bool) s :
  (forall c, p c = true -> q c = true) ->
  all_chars p s = true -> all_chars q s = true.
Proof.
  intros Hpq. induction s as [| c s IH]; [reflexivity |].
  cbn [all_chars]. rewrite !andb_true_iff. intros [Hc Hs]. auto.
Qed.

(** *** The sharp s *)

Lemma sharp_s_cons c x :
  sharp_s_to_SS (String c x)
  = match x with
    | String d r =>
        if is_sharp_s c d then String "S" (String "S" (sharp_s_to_SS r))
        else String c (sharp_s_to_SS x)
    | EmptyString => String c EmptyString
    end.
Proof. destruct x; reflexivity. Qed.

Lemma sharp_s_cons_other c x :
  (nat_of_ascii c =? 195)%nat = false ->
  sharp_s_to_SS (String c x) = String c (sharp_s_to_SS x).
Proof.
  intros Hc. rewrite sharp_s_cons. destruct x as [| d r]; [reflexivity |].
  unfold is_sharp_s. now rewrite Hc.
Qed.

Lemma sharp_s_head d r :
  exists d' r',
    sharp_s_to_SS (String d r) = String d' r' /\ (d' = d \/ d' = "S"%char).
Proof.
  rewrite sharp_s_cons. destruct r as [| e r]; [eauto |].
  destruct (is_sharp_s d e); eauto.
Qed.

Lemma sharp_s_empty s : is_empty (sharp_s_to_SS s) = is_empty s.
Proof.
  destruct s as [| c s]; [reflexivity |].
  destruct (sharp_s_head c s) as (d' & r' & -> & _). reflexivity.
Qed.

Lemma sharp_s_none s :
  all_chars (fun c => negb (nat_of_ascii c =? 195)%nat) s = true ->
  sharp_s_to_SS s = s.
Proof.
  induction s as [| c s IH]; [reflexivity |].
  cbn [all_chars]. rewrite andb_true_iff, negb_true_iff. intros [Hc Hs].
  now rewrite (sharp_s_cons_other c s Hc), IH.
Qed.

Lemma ascii_not_lead c :
  is_ascii c = true -> negb (nat_of_ascii c =? 195)%nat = true.
Proof. by_cases_on_char c. Qed.

Lemma kept_not_lead c :
  in_keep_class c = true -> negb (nat_of_ascii c =? 195)%nat = true.
Proof. by_cases_on_char c. Qed.

Lemma space_not_lead c :
  is_space c = true -> (nat_of_ascii c =? 195)%nat = false.
Proof. by_cases_on_char c. Qed.

Lemma lead_not_space c :
  (nat_of_ascii c =? 195)%nat = true -> is_space c = false.
Proof. by_cases_on_char c. Qed.

Lemma trail_not_space c :
  (nat_of_ascii c =? 159)%nat = true -> is_space c = false.
Proof. by_cases_on_char c. Qed.

Lemma upper_char_lead c :
  (nat_of_ascii (upper_char c) =? 195)%nat = (nat_of_ascii c =? 195)%nat.
Proof. by_cases_on_char c. Qed.

Lemma upper_char_trail c :
  (nat_of_ascii (upper_char c) =? 159)%nat = (nat_of_ascii c =? 159)%nat.
Proof. by_cases_on_char c. Qed.

(** On ASCII text [str_upper] upper-cases the letters and does nothing
    else. *)
Lemma sharp_s_ascii s : all_chars is_ascii s = true -> sharp_s_to_SS s = s.
Proof.
  intros Hs. apply sharp_s_none.
  eapply all_chars_impl; [apply ascii_not_lead | exact Hs].
Qed.

Lemma str_upper_ascii s : all_chars is_ascii s = true -> str_upper s = upper s.
Proof. intros Hs. unfold str_upper. now rewrite sharp_s_ascii. Qed.

Lemma str_upper_head x r :
  is_space x = false ->
  exists x' r', str_upper (String x r) = String x' r' /\ is_space x' = false.
Proof.
  intros Hx. unfold str_upper.
  destruct (sharp_s_head x r) as (d' & r' & -> & [-> | ->]).
  - exists (upper_char x), (upper r'). split; [reflexivity |].
    now rewrite upper_space.
  - exists "S"%char, (upper r'). split; reflexivity.
Qed.

End TextFacts.

(** ** Name normalizer *)

Section NormalizerFacts.
Context `{Library}.
Import Text TextFacts.

Lemma append_empty s : s +:+ EmptyString = s.
Proof.
  induction s as [|c s IH]; [reflexivity |].
  change (String c (s +:+ EmptyString) = String c s). now rewrite IH.
Qed.

Example normalize_acme :
  normalize_name (Str "Acme Corp.") = "ACME CORP"
  /\ normalize_name (Str "  acme-corp ") = "ACMECORP".
Proof. split; reflexivity. Qed.

Lemma differ_only_ascii a b :
  differ_only a b -> all_chars is_ascii a = all_chars is_ascii b.
Proof.
  induction 1 as [s | s t _ IH | s t u _ IH1 _ IH2 | a b s t Ha Hb _
                 | c s t Hc | c s Hc | c s Hc].
  - reflexivity.
  - now symmetry.
  - congruence.
  - rewrite !all_chars_app. cbn [all_chars]. now rewrite Ha, Hb.
  - unfold is_punctuation in Hc. apply andb_true_iff in Hc as [Hc _].
    rewrite !all_chars_app. cbn [all_chars]. now rewrite Hc.
  - cbn [all_chars].
    assert (Ha : is_ascii c = true) by (revert Hc; by_cases_on_char c).
    now rewrite Ha.
  - rewrite all_chars_app. cbn [all_chars].
    assert (Ha : is_ascii c = true) by (revert Hc; by_cases_on_char c).
    rewrite Ha. now rewrite !andb_true_r.
Qed.

Lemma differ_only_same_kept a b :
  differ_only a b ->
  strip (strip_class (upper a)) = strip (strip_class (upper b)).
Proof.
  unfold strip_class, upper.
  induction 1 as [s | s t _ IH | s t u _ IH1 _ IH2 | a b s t _ _ Hab
                 | c s t Hc | c s Hc | c s Hc].
  - reflexivity.
  - now symmetry.
  - now transitivity (strip (filter_chars in_keep_class (map_chars upper_char t))).
  - rewrite !map_chars_app. simpl. now rewrite Hab.
  - rewrite !map_chars_app, !filter_chars_app. simpl.
    unfold is_punctuation in Hc. apply andb_true_iff in Hc as [_ Hc].
    apply negb_true_iff in Hc. now rewrite Hc.
  - cbn [map_chars filter_chars]. rewrite (space_upper c Hc).
    destruct (in_keep_class c) eqn:Hk; [| reflexivity].
    now apply strip_leading.
  - rewrite map_chars_app, filter_chars_app.
    cbn [map_chars filter_chars]. rewrite (space_upper c Hc).
    destruct (in_keep_class c) eqn:Hk.
    + now apply strip_trailing.
    + now rewrite append_empty.
Qed.

(** C4 (amended). Two ASCII importer strings that differ only by letter
    case, by punctuation (ASCII characters other than letters, digits and
    spaces) or by whitespace at either end have the same normalized string,
    and that string is the input with its letters upper-cased, the
    characters outside [A-Z0-9 ] removed, and the result trimmed; no fuzzy
    matching is involved. *)
Theorem normalize_name_differ_only (a b : string) :
  all_chars is_ascii a = true ->
  differ_only a b ->
  normalize_name (Str a) = normalize_name (Str b)
  /\ normalize_name (Str a) = strip (strip_class (upper a))
  /\ normalize_name (Str b) = strip (strip_class (upper b)).
Proof.
  intros Ha Hab.
  assert (Hb : all_chars is_ascii b = true)
    by now rewrite <- (differ_only_ascii a b Hab).
  unfold normalize_name. cbn [astype_str].
  rewrite (str_upper_ascii a Ha), (str_upper_ascii b Hb).
  split; [now apply differ_only_same_kept | split; reflexivity].
Qed.

End NormalizerFacts.

Lemma normalize_name_differ_only_witness :
  all_chars is_ascii "Acme Corp." = true
  /\ differ_only "Acme Corp." "ACME CORP"
  /\ @normalize_name sample_library (Str "Acme Corp.")
     = @normalize_name sample_library (Str "ACME CORP")
  /\ @normalize_name sample_library (Str "Acme Corp.") = "ACME CORP".
Proof.
  assert (D : differ_only "Acme Corp." "ACME CORP").
  { eapply differ_trans.
    { exact (differ_punctuation "." "Acme Corp" "" eq_refl). }
    eapply differ_trans.
    { exact (differ_case "c" "C" "A" "me Corp" eq_refl eq_refl eq_refl). }
    eapply differ_trans.
    { exact (differ_case "m" "M" "AC" "e Corp" eq_refl eq_refl eq_refl). }
    eapply differ_trans.
    { exact (differ_case "e" "E" "ACM" " Corp" eq_refl eq_refl eq_refl). }
    eapply differ_trans.
    { exact (differ_case "o" "O" "ACME C" "rp" eq_refl eq_refl eq_refl). }
    eapply differ_trans.
    { exact (differ_case "r" "R" "ACME CO" "p" eq_refl eq_refl eq_refl). }
    exact (differ_case "p" "P" "ACME COR" "" eq_refl eq_refl eq_refl). }
  split; [reflexivity |]. split; [exact D |].
  destruct (@normalize_name_differ_only sample_library
              "Acme Corp." "ACME CORP" eq_refl D)
    as (Hsame & Ha & _).
  split; [exact Hsame | exact Ha].
Defined.

(** C4, as first stated, fails outside ASCII: "Straße" and "STRAẞE" are the
    same word in lower and in upper case, and [str.upper()] turns the sharp
    s into "SS" while it leaves the capital sharp s, which the regular
    expression then removes. *)
Lemma normalize_name_counterexample :
  Text.str_upper sharp_s = "SS"
  /\ Text.str_upper capital_sharp_s = capital_sharp_s
  /\ @normalize_name sample_library (Str ("Stra" +:+ sharp_s +:+ "e"))
     = "STRASSE"
  /\ @normalize_name sample_library (Str ("STRA" +:+ capital_sharp_s +:+ "E"))
     = "STRAE"
  /\ "STRASSE" <> "STRAE".
Proof. repeat split; try reflexivity. discriminate. Qed.

(** ** Rows of the derived table *)

Lemma get_set_cell_eq c f r : get (set_cell c f r) c = f r.
Proof. unfold get, set_cell. now rewrite lookup_insert_eq. Qed.

Lemma get_set_cell_ne c c' f r : c <> c' -> get (set_cell c f r) c' = get r c'.
Proof. intros Hne. unfold get, set_cell. now rewrite lookup_insert_ne. Qed.

Lemma lookup_set_cell_ne c c' f (r : gmap string cell) :
  c <> c' -> set_cell c f r !! c' = r !! c'.
Proof. intros Hne. unfold set_cell. now rewrite lookup_insert_ne. Qed.

Lemma rows_assign c d f df : rows (assign c d f df) = set_cell c f <$> rows df.
Proof. reflexivity. Qed.

Lemma length_rows_assign c d f df :
  length (rows (assign c d f df)) = length (rows df).
Proof. rewrite rows_assign. apply length_fmap. Qed.

Ltac read_cells :=
  repeat first
    [ rewrite get_set_cell_eq
    | rewrite get_set_cell_ne by discriminate
    | rewrite lookup_set_cell_ne by congruence ].

Section DerivationFacts.
Context `{Library}.

Lemma normalize_importer_names_assign df t :
  normalize_importer_names df t
  = assign "Normalized_Importer" DObject
      (fun r => Str (normalize_name (get r "Importer"))) df.
Proof. reflexivity. Qed.

Lemma length_rows_derive df : length (rows (derive df)) = length (rows df).
Proof.
  unfold derive, derive_fields. rewrite normalize_importer_names_assign.
  now rewrite !length_rows_assign.
Qed.

(** Row [i] of the derived table, read off row [i] of the unified one. *)
Lemma derive_row df i r :
  rows df !! i = Some r ->
  exists r',
    rows (derive df) !! i = Some r'
    /\ get r' "Importer" = Str (clean_importer (get r "Importer"))
    /\ get r' "Date" = opt_cell Ts (to_datetime (get r "Date"))
    /\ get r' "Master Bill Number"
       = fillna (bill_or_nan (get r "Master Bill Number"))
           (str_add
              (str_add (Str (clean_importer (get r "Importer"))) (Str " "))
              (match to_datetime (get r "Date") with
               | Some d => Str (strftime_Bd d)
               | None => NaN
               end))
    /\ get r' "Container Name"
       = Str (Text.strip (astype_str (get r' "Master Bill Number")))
    /\ get r' "Unique Master Bill Number" = get r' "Container Name"
    /\ get r' "Quantity" = opt_cell Num (to_numeric (get r "Quantity"))
    /\ get r' "Weight (kgs)" = get r' "Quantity"
    /\ get r' "Value (USD)" = opt_cell Num (to_numeric (get r "Value(USD)"))
    /\ get r' "Unit Price (USD)"
       = opt_cell Num (to_numeric (get r "Unit Price(USD)"))
    /\ get r' "Shipment Cost" = get r' "Value (USD)"
    /\ (forall c, c ∉ derived_columns -> r' !! c = r !! c).
Proof.
  intros Hr. eexists. split.
  { unfold derive, derive_fields. rewrite normalize_importer_names_assign.
    rewrite !rows_assign, !list_lookup_fmap, Hr. reflexivity. }
  repeat split; read_cells; try reflexivity.
  - destruct (to_datetime (get r "Date")); reflexivity.
  - intros c Hc. unfold derived_columns in Hc.
    repeat (rewrite not_elem_of_cons in Hc; destruct Hc as [? Hc]).
    read_cells. reflexivity.
Qed.

End DerivationFacts.

(** ** Field deriver *)

Section DeriverFacts.
Context `{Library}.
Import Text TextFacts.

Lemma clean_importer_head c :
  clean_importer c = EmptyString
  \/ exists x r, clean_importer c = String x r /\ is_space x = false.
Proof.
  unfold clean_importer.
  destruct (strip_head (astype_str c)) as [-> | (x & r & -> & Hx)].
  - now left.
  - right. now apply str_upper_head.
Qed.

Lemma strftime_Bd_last d :
  exists t, strftime_Bd d = t +:+ String (digit_char (day d)) EmptyString.
Proof.
  unfold strftime_Bd, two_digits.
  exists (month_name (mon d) +:+ String (digit_char (day d / 10)) EmptyString).
  now rewrite append_assoc.
Qed.

(** The synthesized bill number of a named importer is already trimmed. *)
Lemma synthesized_trimmed c d :
  clean_importer c <> EmptyString ->
  strip ((clean_importer c +:+ " ") +:+ strftime_Bd d)
  = (clean_importer c +:+ " ") +:+ strftime_Bd d.
Proof.
  intros Hne.
  destruct (clean_importer_head c) as [E | (x & r & E & Hx)]; [contradiction |].
  destruct (strftime_Bd_last d) as [t Et]. rewrite E, Et.
  rewrite <- !append_assoc. rewrite (append_assoc (String x r)).
  apply strip_between; [exact Hx | apply digit_not_space].
Qed.

(** C2 (amended). A record with an importer and a parsed date has a
    container name, and it is a string: the trimmed text of the bill number
    when there is one; otherwise the trimmed text of the importer name, a
    space and the month name and two-digit day, which for a non-empty
    importer name is exactly that concatenation.  The month is rendered
    capitalised, as in "ACME January05". *)
Theorem container_name_of_dated_record
    (df : frame) (i : nat) (r : gmap string cell) (d : date) :
  rows df !! i = Some r ->
  get r "Importer" <> NaN ->
  to_datetime (get r "Date") = Some d ->
  exists r' name,
    rows (derive df) !! i = Some r'
    /\ get r' "Container Name" = Str name
    /\ (bill_or_nan (get r "Master Bill Number") <> NaN ->
        name = strip (astype_str (get r "Master Bill Number")))
    /\ (bill_or_nan (get r "Master Bill Number") = NaN ->
        let importer := clean_importer (get r "Importer") in
        get r' "Importer" = Str importer
        /\ name = strip ((importer +:+ " ") +:+ strftime_Bd d)
        /\ (importer <> EmptyString ->
            name = (importer +:+ " ") +:+ strftime_Bd d)).
Proof.
  intros Hr _ Hd.
  destruct (derive_row df i r Hr)
    as (r' & Hr' & Himp & _ & Hbill & Hname & _).
  rewrite Hd in Hbill. simpl in Hbill.
  exists r'. eexists. split; [exact Hr' |]. split; [exact Hname |].
  rewrite Hbill. split.
  - intros Hpresent. unfold bill_or_nan in *.
    destruct (String.eqb (astype_str (get r "Master Bill Number")) "nan");
      [contradiction | reflexivity].
  - intros Hnone. rewrite Hnone. simpl. split; [exact Himp |].
    split; [reflexivity |]. intros Hne. now apply synthesized_trimmed.
Qed.

(** A record with neither bill number (a missing cell, or the text "nan")
    nor parsed date gets no synthesized bill number: line 84 has nothing to
    fill the cell with, so it stays missing, and line 86 renders it as the
    text "nan", whatever the importer. *)
Lemma undated_record_not_synthesized
    (df : frame) (i : nat) (r : gmap string cell) :
  rows df !! i = Some r ->
  bill_or_nan (get r "Master Bill Number") = NaN ->
  to_datetime (get r "Date") = None ->
  exists r',
    rows (derive df) !! i = Some r'
    /\ get r' "Master Bill Number" = NaN
    /\ get r' "Unique Master Bill Number" = Str "nan"
    /\ get r' "Container Name" = Str "nan".
Proof.
  intros Hr Hbill Hdate.
  destruct (derive_row df i r Hr)
    as (r' & Hr' & _ & _ & Hb & Hname & Huniq & _).
  rewrite Hbill, Hdate in Hb. simpl in Hb.
  exists r'. rewrite Huniq, Hname, Hb. repeat split; [exact Hr' | ..].
Qed.

(** *** Statements that may raise *)

Lemma mem_string_elem_of c l : mem_string c l = true <-> c ∈ l.
Proof.
  unfold mem_string. rewrite existsb_exists. split.
  - intros (x & Hx & E). apply String.eqb_eq in E. subst.
    now apply list_elem_of_In.
  - intros Hc. exists c. split; [now apply list_elem_of_In |].
    apply String.eqb_refl.
Qed.







(** A label that stands twice is not a column. *)
Lemma is_column_repeated df c pre mid post :
  fst <$> columns df = pre ++ c :: mid ++ c :: post ->
  is_column df c = false.
Proof.
  unfold is_column. intros ->.
  rewrite List.filter_app. cbn [List.filter]. rewrite String.eqb_refl.
  rewrite List.filter_app. cbn [List.filter]. rewrite String.eqb_refl.
  rewrite !length_app. cbn [length]. rewrite length_app. cbn [length].
  apply Nat.eqb_neq. lia.
Qed.






(** With [errors='raise'] they raise on a cell that is there and in which
    nothing is read. *)
Lemma to_numeric_raise c :
  isna c = false -> to_numeric c = None ->
  to_numeric_errors errors_raise c = None.
Proof. intros Hc Hn. unfold to_numeric_errors. now rewrite Hn, Hc. Qed.






End DeriverFacts.

Lemma container_name_of_dated_record_witness :
  exists r,
    rows (unified upload_without_bills) !! 0%nat = Some r
    /\ get r "Importer" <> NaN
    /\ @to_datetime sample_library (get r "Date") = Some jan5
    /\ exists r' name,
        rows (@derive sample_library (unified upload_without_bills)) !! 0%nat
        = Some r'
        /\ get r' "Container Name" = Str name.
Proof.
  eexists. split; [vm_compute; reflexivity |].
  assert (Hi : get (to_row ["Importer"] [Str "acme"]) "Importer" <> NaN)
    by (vm_compute; discriminate).
  split; [vm_compute; discriminate |]. split; [vm_compute; reflexivity |].
  destruct (@container_name_of_dated_record sample_library
              (unified upload_without_bills) 0%nat _ jan5 eq_refl)
    as (r' & name & Hr' & Hname & _).
  - vm_compute; discriminate.
  - vm_compute; reflexivity.
  - exists r', name. split; assumption.
Defined.

(** C2, as first stated, fails: the month is not upper-cased, and an empty
    importer name leaves no leading space in the container name. *)
Lemma container_name_counterexample :
  (fun r => (get r "Importer", get r "Date", get r "Container Name"))
    <$> rows (@derive sample_library (unified upload_without_bills))
  = [(Str "ACME", Ts jan5, Str "ACME January05");
     (Str "", Ts jan5, Str "January05")]
  /\ "ACME January05" <> "ACME JANUARY05"
  /\ "January05" <> ("" +:+ " ") +:+ strftime_Bd jan5.
Proof. split; [vm_compute; reflexivity |]. split; discriminate. Qed.

(** C9. The code departs from the claim: the bill number line 84
    synthesizes for a record without date is missing, since the importer
    name is joined to a missing day, and line 86 turns the missing cell
    into the text "nan".  Two undated records of different importers get
    the one container name "nan", which holds neither importer name, and
    are added up as one container. *)
Theorem undated_records_share_container :
  let d := @derive sample_library (unified upload_two_undated) in
  (fun r => (get r "Importer", get r "Date", get r "Master Bill Number",
             get r "Container Name")) <$> rows d
  = [(Str "ACME", NaN, NaN, Str "nan"); (Str "GLOBEX", NaN, NaN, Str "nan")]
  /\ Text.contains "ACME" "nan" = false
  /\ Text.contains "GLOBEX" "nan" = false
  /\ (fun r => get r "Container Name")
       <$> rows (@shipment_cost_per_container sample_library d)
     = [Str "nan"].
Proof. repeat split; vm_compute; reflexivity. Qed.


(** ** Group keys *)

Lemma Qeq_bool_sym p q : Qeq_bool p q = Qeq_bool q p.
Proof.
  destruct (Qeq_bool p q) eqn:E1, (Qeq_bool q p) eqn:E2; try reflexivity.
  - apply Qeq_bool_iff in E1. symmetry in E1. apply Qeq_bool_iff in E1.
    congruence.
  - apply Qeq_bool_iff in E2. symmetry in E2. apply Qeq_bool_iff in E2.
    congruence.
Qed.

Lemma Qeq_bool_trans' p q r :
  Qeq_bool p q = true -> Qeq_bool q r = true -> Qeq_bool p r = true.
Proof.
  rewrite !Qeq_bool_iff. intros E1 E2. now rewrite E1.
Qed.

Lemma date_eqb_spec d e :
  date_eqb d e = true
  <-> year d = year e /\ month_index (mon d) = month_index (mon e)
      /\ day d = day e.
Proof.
  unfold date_eqb. rewrite !andb_true_iff, Z.eqb_eq, !Nat.eqb_eq. tauto.
Qed.

Lemma date_eqb_refl d : date_eqb d d = true.
Proof. apply date_eqb_spec. auto. Qed.

Lemma date_eqb_sym d e : date_eqb d e = date_eqb e d.
Proof.
  destruct (date_eqb d e) eqn:E1, (date_eqb e d) eqn:E2; try reflexivity.
  - apply date_eqb_spec in E1. destruct E1 as (? & ? & ?).
    assert (date_eqb e d = true) by (apply date_eqb_spec; auto). congruence.
  - apply date_eqb_spec in E2. destruct E2 as (? & ? & ?).
    assert (date_eqb d e = true) by (apply date_eqb_spec; auto). congruence.
Qed.

Lemma date_eqb_trans d e f :
  date_eqb d e = true -> date_eqb e f = true -> date_eqb d f = true.
Proof.
  rewrite !date_eqb_spec. intros (? & ? & ?) (? & ? & ?).
  repeat split; congruence.
Qed.

Lemma cell_eqb_lst_cons x l y m :
  cell_eqb (Lst (x :: l)) (Lst (y :: m))
  = cell_eqb x y && cell_eqb (Lst l) (Lst m).
Proof. reflexivity. Qed.

Lemma cell_eqb_refl a : cell_eqb a a = true.
Proof.
  induction a as [| s | q | d | l IH] using cell_nested_ind; simpl.
  - reflexivity.
  - apply String.eqb_refl.
  - apply Qeq_bool_iff. reflexivity.
  - apply date_eqb_refl.
  - induction IH as [| x l Hx _ IHl]; [reflexivity |].
    change (cell_eqb (Lst (x :: l)) (Lst (x :: l)) = true).
    rewrite cell_eqb_lst_cons, Hx. exact IHl.
Qed.

Lemma cell_eqb_sym a : forall b, cell_eqb a b = cell_eqb b a.
Proof.
  induction a as [| s | q | d | l IH] using cell_nested_ind;
    intros [| s' | q' | d' | m]; try reflexivity.
  - apply String.eqb_sym.
  - apply Qeq_bool_sym.
  - apply date_eqb_sym.
  - revert m. induction IH as [| x l Hx _ IHl]; intros [| y m];
      try reflexivity.
    rewrite !cell_eqb_lst_cons, Hx. f_equal. apply IHl.
Qed.

Lemma cell_eqb_trans a :
  forall b c, cell_eqb a b = true -> cell_eqb b c = true -> cell_eqb a c = true.
Proof.
  induction a as [| s | q | d | l IH] using cell_nested_ind;
    intros [| s' | q' | d' | m] [| s'' | q'' | d'' | n];
    try discriminate; try reflexivity.
  - simpl. rewrite !String.eqb_eq. congruence.
  - apply Qeq_bool_trans'.
  - apply date_eqb_trans.
  - revert m n. induction IH as [| x l Hx _ IHl];
      intros [| y m] [| z n]; try discriminate; try reflexivity.
    rewrite !cell_eqb_lst_cons, !andb_true_iff.
    intros [E1 E2] [E3 E4]. split; [eapply Hx | eapply IHl]; eassumption.
Qed.

Lemma key_eqb_refl k : key_eqb k k = true.
Proof. induction k as [| a k IH]; simpl; [| rewrite cell_eqb_refl]; auto. Qed.

Lemma key_eqb_sym k : forall k', key_eqb k k' = key_eqb k' k.
Proof.
  induction k as [| a k IH]; intros [| b k']; try reflexivity.
  simpl. now rewrite cell_eqb_sym, IH.
Qed.

Lemma key_eqb_trans k :
  forall k' k'',
    key_eqb k k' = true -> key_eqb k' k'' = true -> key_eqb k k'' = true.
Proof.
  induction k as [| a k IH]; intros [| b k'] [| c k'']; try discriminate;
    try reflexivity.
  simpl. rewrite !andb_true_iff. intros [E1 E2] [E3 E4].
  split; [eapply cell_eqb_trans | eapply IH]; eassumption.
Qed.

(** ** Distinct values and sorting *)

Section Unique.
Context {A : Type} (eqv : A -> A -> bool).
Hypothesis eqv_sym : forall x y, eqv x y = eqv y x.
Hypothesis eqv_trans :
  forall x y z, eqv x y = true -> eqv y z = true -> eqv x z = true.

Lemma eqv_congr x y z : eqv x y = true -> eqv x z = eqv y z.
Proof.
  intros Exy. destruct (eqv x z) eqn:Exz, (eqv y z) eqn:Eyz; try reflexivity.
  - rewrite eqv_sym in Exy. rewrite (eqv_trans y x z Exy Exz) in Eyz.
    discriminate.
  - rewrite (eqv_trans x y z Exy Eyz) in Exz. discriminate.
Qed.

Lemma existsb_eqv_congr x y l :
  eqv x y = true -> existsb (eqv x) l = existsb (eqv y) l.
Proof.
  intros Exy. induction l as [| z l IH]; simpl; [reflexivity |].
  now rewrite IH, (eqv_congr x y z Exy).
Qed.

(** Among the distinct values there is exactly one equal to a value of
    the list, and none equal to a value already seen. *)
Lemma unique_from_count seen l y :
  length (List.filter (fun k => eqv k y) (unique_from eqv seen l))
  = if existsb (eqv y) seen then 0%nat
    else if existsb (eqv y) l then 1%nat else 0%nat.
Proof.
  revert seen. induction l as [| x l IH]; intros seen; simpl.
  - now destruct (existsb (eqv y) seen).
  - destruct (existsb (eqv x) seen) eqn:Ex.
    + rewrite IH. destruct (existsb (eqv y) seen) eqn:Ey; [reflexivity |].
      destruct (eqv y x) eqn:Eyx; [| reflexivity].
      rewrite (existsb_eqv_congr y x seen Eyx) in Ey. congruence.
    + simpl. rewrite (eqv_sym x y).
      destruct (eqv y x) eqn:Eyx; simpl; rewrite IH; simpl; rewrite Eyx; simpl.
      * rewrite (existsb_eqv_congr y x seen Eyx), Ex. reflexivity.
      * reflexivity.
Qed.

Lemma unique_by_count l y :
  existsb (eqv y) l = true ->
  length (List.filter (fun k => eqv k y) (unique_by eqv l)) = 1%nat.
Proof.
  intros Hy. unfold unique_by. rewrite unique_from_count. simpl.
  now rewrite Hy.
Qed.

Lemma unique_from_subset seen l x :
  x ∈ unique_from eqv seen l -> x ∈ l.
Proof.
  revert seen. induction l as [| y l IH]; intros seen; simpl.
  - auto.
  - destruct (existsb (eqv y) seen).
    + intros Hx. right. eauto.
    + rewrite elem_of_cons. intros [-> | Hx]; [left | right; eauto].
Qed.

End Unique.

Lemma insert_by_permutation {A} (leb : A -> A -> bool) x l :
  Permutation (insert_by leb x l) (x :: l).
Proof.
  induction l as [| y l IH]; simpl; [reflexivity |].
  destruct (leb x y); [reflexivity |].
  rewrite IH. apply perm_swap.
Qed.

Lemma sort_by_permutation {A} (leb : A -> A -> bool) l :
  Permutation (sort_by leb l) l.
Proof.
  induction l as [| x l IH]; simpl; [reflexivity |].
  rewrite insert_by_permutation. now constructor.
Qed.

Lemma filter_length_permutation {A} (p : A -> bool) l l' :
  Permutation l l' ->
  length (List.filter p l) = length (List.filter p l').
Proof.
  induction 1 as [| x l l' _ IH | x y l | l l' l'' _ IH1 _ IH2]; simpl.
  - reflexivity.
  - destruct (p x); simpl; congruence.
  - destruct (p x), (p y); reflexivity.
  - congruence.
Qed.

Lemma filter_fmap {A B} (p : B -> bool) (f : A -> B) l :
  List.filter p (f <$> l) = f <$> List.filter (fun x => p (f x)) l.
Proof.
  induction l as [| x l IH]; [reflexivity |].
  change (List.filter p (f x :: (f <$> l))
          = f <$> List.filter (fun x => p (f x)) (x :: l)).
  cbn [List.filter]. rewrite IH. now destruct (p (f x)).
Qed.
(** ** Groups *)

Section Groups.
Variables (by_cols : list string).

(** Every row with a key falls in exactly one group of [group_keys]. *)
Lemma group_keys_count df r k :
  r ∈ rows df -> key_of by_cols r = Some k ->
  length (List.filter (fun k' => key_eqb k' k) (group_keys by_cols df))
  = 1%nat.
Proof.
  intros Hr Hk. unfold group_keys.
  rewrite (filter_length_permutation _ _ _ (sort_by_permutation key_leb _)).
  apply unique_by_count; [apply key_eqb_sym | apply key_eqb_trans |].
  apply existsb_exists. exists k. split; [| apply key_eqb_refl].
  apply list_elem_of_In, list_elem_of_omap. eauto.
Qed.

End Groups.

(** ** Aggregator *)

Lemma get_groupby_row_out by_cols out v k :
  get (<[out := v]> (to_row by_cols k)) out = v.
Proof. unfold get. now rewrite lookup_insert_eq. Qed.

Lemma get_groupby_row_first c rest out v k :
  out <> c ->
  get (<[out := v]> (to_row (c :: rest) k)) c = hd NaN k.
Proof.
  intros Hne. unfold get, to_row. rewrite lookup_insert_ne by exact Hne.
  destruct k as [| a k]; simpl.
  - now rewrite lookup_empty.
  - now rewrite lookup_insert_eq.
Qed.

Lemma get_groupby_row_second c1 c2 out v k :
  out <> c2 -> c1 <> c2 ->
  get (<[out := v]> (to_row [c1; c2] k)) c2 = nth 1 k NaN.
Proof.
  intros Hout Hne. unfold get, to_row. rewrite lookup_insert_ne by exact Hout.
  destruct k as [| a [| b k]]; simpl.
  - now rewrite lookup_empty.
  - rewrite lookup_insert_ne by exact Hne. now rewrite lookup_empty.
  - rewrite lookup_insert_ne by exact Hne. now rewrite lookup_insert_eq.
Qed.

Lemma cell_eqb_missing a : isna a = false -> cell_eqb a NaN = false.
Proof. now destruct a. Qed.

Lemma elem_of_group_keys by_cols df k :
  k ∈ group_keys by_cols df ->
  exists r, r ∈ rows df /\ key_of by_cols r = Some k.
Proof.
  unfold group_keys. intros Hk.
  apply list_elem_of_In in Hk.
  apply (Permutation_in _ (sort_by_permutation key_leb _)) in Hk.
  apply list_elem_of_In, unique_from_subset, list_elem_of_omap in Hk.
  exact Hk.
Qed.

Lemma group_keys_cover by_cols df r k :
  r ∈ rows df -> key_of by_cols r = Some k ->
  exists k', k' ∈ group_keys by_cols df /\ key_eqb k' k = true.
Proof.
  intros Hr Hk. pose proof (group_keys_count by_cols df r k Hr Hk) as Hcount.
  destruct (List.filter (fun k' => key_eqb k' k) (group_keys by_cols df))
    as [| k' rest] eqn:E; [discriminate |].
  assert (Hin : In k' (List.filter (fun k' => key_eqb k' k)
                         (group_keys by_cols df)))
    by (rewrite E; now left).
  apply filter_In in Hin as [Hin Heq].
  exists k'. split; [now apply list_elem_of_In | exact Heq].
Qed.

Lemma key_eqb_single_str k s : key_eqb k [Str s] = true -> k = [Str s].
Proof.
  destruct k as [| a [| b k]]; try discriminate.
  - simpl. rewrite andb_true_r. destruct a; try discriminate.
    simpl. intros E. apply String.eqb_eq in E. now subst.
  - simpl. rewrite andb_false_r. discriminate.
Qed.

(** *** Weight per Product *)

Lemma pair_key_of (x : gmap string cell) :
  key_of ["Container Name"; "Description"] x
  = if isna (get x "Container Name") || isna (get x "Description")
    then None
    else Some [get x "Container Name"; get x "Description"].
Proof.
  unfold key_of. cbn [fmap list_fmap existsb]. now rewrite orb_false_r.
Qed.

Lemma pair_key_described (x : gmap string cell) :
  isna (get x "Container Name") = false ->
  isna (get x "Description") = false ->
  key_of ["Container Name"; "Description"] x
  = Some [get x "Container Name"; get x "Description"].
Proof. intros Hc Hd. now rewrite pair_key_of, Hc, Hd. Qed.

Lemma pair_key_shape d k :
  k ∈ group_keys ["Container Name"; "Description"] d ->
  exists a b, k = [a; b] /\ isna a = false /\ isna b = false.
Proof.
  intros Hk. apply elem_of_group_keys in Hk as (x & _ & Hx).
  rewrite pair_key_of in Hx.
  destruct (isna (get x "Container Name")) eqn:Ea; [discriminate |].
  destruct (isna (get x "Description")) eqn:Eb; [discriminate |].
  injection Hx as <-. eauto.
Qed.

Section WeightFacts.
Context `{Library}.

(** The row of "Weight per Product" for the key [k]. *)
Lemma weight_per_product_rows d :
  rows (weight_per_product d)
  = (fun k =>
       <["Weight (kgs)" :=
           group_sum ((fun x => get x "Weight (kgs)")
                        <$> group_rows ["Container Name"; "Description"] k d)]>
         (to_row ["Container Name"; "Description"] k))
    <$> group_keys ["Container Name"; "Description"] d.
Proof. reflexivity. Qed.

Lemma same_product_key v a b (r : gmap string cell) :
  same_product
    (<["Weight (kgs)" := v]> (to_row ["Container Name"; "Description"] [a; b]))
    r
  = key_eqb [a; b] [get r "Container Name"; get r "Description"].
Proof.
  unfold same_product.
  rewrite get_groupby_row_first by discriminate.
  rewrite get_groupby_row_second by discriminate.
  cbn [hd nth key_eqb]. now rewrite andb_true_r.
Qed.

(** The rows of the group of a row with a container and a description are
    the rows with that container and that description. *)
Lemma group_of_described_row d k (r : gmap string cell) :
  isna (get r "Container Name") = false ->
  isna (get r "Description") = false ->
  key_eqb k [get r "Container Name"; get r "Description"] = true ->
  group_rows ["Container Name"; "Description"] k d
  = List.filter (same_product r) (rows d).
Proof.
  intros Hc Hd Hk. unfold group_rows. apply List.filter_ext. intros x.
  unfold in_group, same_product. rewrite pair_key_of.
  destruct (isna (get x "Container Name")) eqn:Ea.
  { destruct (get x "Container Name"); try discriminate.
    now rewrite (cell_eqb_missing _ Hc). }
  destruct (isna (get x "Description")) eqn:Eb.
  { destruct (get x "Description"); try discriminate.
    now rewrite (cell_eqb_missing _ Hd), andb_false_r. }
  cbn [orb].
  rewrite (eqv_congr key_eqb key_eqb_sym
             (fun x y z => key_eqb_trans x y z) _ _ _ Hk).
  cbn [key_eqb]. now rewrite andb_true_r.
Qed.

(** A row with a container and a description is counted in exactly one
    row of "Weight per Product", whose weight is the sum over the rows
    with that container and that description. *)
Lemma weight_per_product_described d (r : gmap string cell) :
  r ∈ rows d ->
  isna (get r "Container Name") = false ->
  isna (get r "Description") = false ->
  length (List.filter (fun row => same_product row r)
            (rows (weight_per_product d))) = 1%nat
  /\ forall row,
       row ∈ rows (weight_per_product d) ->
       same_product row r = true ->
       get row "Weight (kgs)"
       = group_sum ((fun x => get x "Weight (kgs)")
                      <$> List.filter (same_product r) (rows d)).
Proof.
  intros Hr Hc Hd. rewrite weight_per_product_rows. split.
  - rewrite filter_fmap, length_fmap.
    rewrite (List.filter_ext_in _
               (fun k => key_eqb k [get r "Container Name";
                                    get r "Description"])).
    + apply (group_keys_count _ d r); [exact Hr |].
      now apply pair_key_described.
    + intros k Hk. apply list_elem_of_In, pair_key_shape in Hk
        as (a & b & -> & _). apply same_product_key.
  - intros row Hrow Hsame.
    apply list_elem_of_fmap in Hrow as (k & -> & Hk).
    destruct (pair_key_shape d k Hk) as (a & b & -> & _).
    rewrite same_product_key in Hsame.
    rewrite get_groupby_row_out.
    now rewrite (group_of_described_row d [a; b] r Hc Hd Hsame).
Qed.

(** A row without description is counted in no row of the sheet. *)
Lemma weight_per_product_undescribed d (r : gmap string cell) :
  isna (get r "Description") = true ->
  forall row,
    row ∈ rows (weight_per_product d) -> same_product row r = false.
Proof.
  intros Hd row Hrow. rewrite weight_per_product_rows in Hrow.
  apply list_elem_of_fmap in Hrow as (k & -> & Hk).
  destruct (pair_key_shape d k Hk) as (a & b & -> & _ & Hb).
  rewrite same_product_key. cbn [key_eqb].
  destruct (get r "Description"); try discriminate.
  now rewrite (cell_eqb_missing b Hb), andb_false_r.
Qed.

(** Every row of the sheet is the row of some row with a container and a
    description. *)
Lemma weight_per_product_row_source d row :
  row ∈ rows (weight_per_product d) ->
  exists r,
    r ∈ rows d /\ isna (get r "Description") = false
    /\ same_product row r = true.
Proof.
  intros Hrow. rewrite weight_per_product_rows in Hrow.
  apply list_elem_of_fmap in Hrow as (k & -> & Hk).
  destruct (pair_key_shape d k Hk) as (a & b & -> & _).
  apply elem_of_group_keys in Hk as (r & Hr & Hkey).
  rewrite pair_key_of in Hkey.
  destruct (isna (get r "Container Name")) eqn:Ea; [discriminate |].
  destruct (isna (get r "Description")) eqn:Eb; [discriminate |].
  injection Hkey as Ha Hb. exists r. split; [exact Hr |].
  split; [exact Eb |].
  rewrite same_product_key, Ha, Hb. apply key_eqb_refl.
Qed.

(** C1 (amended). The weights on the "Weight per Product" sheet account
    for the derived rows that have a description, and for no other: such a
    row is counted in exactly one row of the sheet, the row of its
    container and description, whose weight is the sum pandas gives for the
    numeric-coerced quantities of the derived rows with that container and
    that description; a row without description is counted in no row; and
    every row of the sheet is the row of some described row. *)
Theorem weight_per_product_groups (df : frame) :
  (forall i r,
     rows df !! i = Some r ->
     exists r',
       rows (derive df) !! i = Some r'
       /\ get r' "Weight (kgs)" = opt_cell Num (to_numeric (get r "Quantity"))
       /\ (isna (get r "Description") = false ->
           length (List.filter (fun row => same_product row r')
                     (rows (weight_per_product (derive df)))) = 1%nat
           /\ forall row,
                row ∈ rows (weight_per_product (derive df)) ->
                same_product row r' = true ->
                get row "Weight (kgs)"
                = group_sum ((fun x => get x "Weight (kgs)")
                               <$> List.filter (same_product r')
                                     (rows (derive df))))
       /\ (isna (get r "Description") = true ->
           forall row,
             row ∈ rows (weight_per_product (derive df)) ->
             same_product row r' = false))
  /\ (forall row,
        row ∈ rows (weight_per_product (derive df)) ->
        exists r',
          r' ∈ rows (derive df) /\ isna (get r' "Description") = false
          /\ same_product row r' = true).
Proof.
  split; [| apply weight_per_product_row_source].
  intros i r Hr.
  destruct (derive_row df i r Hr)
    as (r' & Hr' & _ & _ & _ & Hname & _ & Hq & Hw & _ & _ & _ & Hrest).
  assert (Hdesc : get r' "Description" = get r "Description").
  { unfold get. rewrite Hrest; [reflexivity |].
    unfold derived_columns. rewrite !not_elem_of_cons.
    repeat split; try discriminate. apply not_elem_of_nil. }
  exists r'. split; [exact Hr' |]. split; [now rewrite Hw |].
  rewrite <- Hdesc. split.
  - intros Hd. apply weight_per_product_described.
    + eapply list_elem_of_lookup_2, Hr'.
    + now rewrite Hname.
    + exact Hd.
  - apply weight_per_product_undescribed.
Qed.

End WeightFacts.

Lemma weight_per_product_groups_witness :
  exists r',
    rows (@derive sample_library one_product_frame) !! 0%nat = Some r'
    /\ get r' "Weight (kgs)" = Num 5
    /\ length (List.filter (fun row => same_product row r')
                 (rows (@weight_per_product sample_library
                          (@derive sample_library one_product_frame))))
       = 1%nat
    /\ forall row,
         row ∈ rows (@weight_per_product sample_library
                       (@derive sample_library one_product_frame)) ->
         same_product row r' = true ->
         get row "Weight (kgs)"
         = @group_sum sample_library
             ((fun x => get x "Weight (kgs)")
                <$> List.filter (same_product r')
                      (rows (@derive sample_library one_product_frame))).
Proof.
  destruct (proj1 (@weight_per_product_groups sample_library
                     one_product_frame) 0%nat _ eq_refl)
    as (r' & Hr' & Hw & Hdescribed & _).
  exists r'. split; [exact Hr' |]. split; [exact Hw |].
  exact (Hdescribed eq_refl).
Defined.

(** C1, as first stated, fails: a row without description is in no group,
    so for container "MB1" the sheet adds up no weight at all while the
    derived table adds up the weight 5. *)
Lemma weight_per_product_counterexample :
  let d := @derive sample_library (unified upload_without_description) in
  (fun r => (get r "Container Name", get r "Description", get r "Weight (kgs)"))
    <$> rows d
  = [(Str "MB1", NaN, Num 5)]
  /\ rows (@weight_per_product sample_library d) = []
  /\ container_weights "MB1" (@weight_per_product sample_library d) = []
  /\ container_weights "MB1" d = [Num 5]
  /\ ~ (exact_sum [] == exact_sum [Num 5])%Q.
Proof.
  split; [vm_compute; reflexivity |]. split; [vm_compute; reflexivity |].
  split; [vm_compute; reflexivity |]. split; [vm_compute; reflexivity |].
  vm_compute. discriminate.
Qed.

Section ImporterFacts.
Context `{Library}.

Lemma derive_row_back df r' :
  r' ∈ rows (derive df) ->
  exists r,
    r ∈ rows df
    /\ get r' "Importer" = Str (clean_importer (get r "Importer")).
Proof.
  intros Hr'. apply list_elem_of_lookup in Hr' as [i Hi].
  assert (Hlt : (i < length (rows df))%nat).
  { rewrite <- length_rows_derive. eapply lookup_lt_Some, Hi. }
  apply lookup_lt_is_Some in Hlt as [r Hr].
  destruct (derive_row df i r Hr) as (r'' & Hr'' & Himp & _).
  rewrite Hi in Hr''. injection Hr'' as <-.
  exists r. split; [| exact Himp]. eapply list_elem_of_lookup_2, Hr.
Qed.

(** C10. [normalize_importer_names] returns its argument with the one
    column "Normalized_Importer" assigned: every other cell of every
    record, the importer included, is unchanged, and the mapping computed
    in the loop is dropped.  The derived table is therefore the same
    whatever the scorer, and the keys of "Total Value per Importer" are
    exactly the trimmed, upper-cased raw importer names. *)
Theorem importer_is_raw_name (df : frame) :
  (forall t,
     normalize_importer_names df t
     = assign "Normalized_Importer" DObject
         (fun r => Str (normalize_name (get r "Importer"))) df)
  /\ (forall t i r,
        rows df !! i = Some r ->
        exists r',
          rows (normalize_importer_names df t) !! i = Some r'
          /\ forall c, c <> "Normalized_Importer" -> r' !! c = r !! c)
  /\ (forall scorer, @derive (with_scorer H scorer) df = derive df)
  /\ (forall k,
        k ∈ ((fun row => get row "Importer")
               <$> rows (revenue_per_importer (derive df)))
        <-> exists r,
              r ∈ rows df /\ k = Str (clean_importer (get r "Importer"))).
Proof.
  split; [reflexivity |]. split; [| split; [reflexivity |]].
  - intros t i r Hr. eexists. split.
    + rewrite normalize_importer_names_assign, rows_assign,
        list_lookup_fmap, Hr. reflexivity.
    + intros c Hc. now rewrite lookup_set_cell_ne by congruence.
  - intros k. unfold revenue_per_importer, groupby_sum. cbn [rows].
    rewrite <- list_fmap_compose, list_elem_of_fmap. split.
    + intros (key & -> & Hkey). unfold compose.
      rewrite get_groupby_row_first by discriminate.
      apply elem_of_group_keys in Hkey as (r' & Hr' & Hk).
      destruct (derive_row_back df r' Hr') as (r & Hr & Himp).
      exists r. split; [exact Hr |].
      unfold key_of in Hk. cbn [fmap list_fmap existsb] in Hk.
      rewrite Himp in Hk. cbn in Hk. now injection Hk as <-.
    + intros (r & Hr & ->).
      apply list_elem_of_lookup in Hr as [i Hi].
      destruct (derive_row df i r Hi) as (r' & Hr' & Himp & _).
      destruct (group_keys_cover ["Importer"] (derive df) r'
                  [Str (clean_importer (get r "Importer"))])
        as (k' & Hk' & Heq).
      * eapply list_elem_of_lookup_2, Hr'.
      * unfold key_of. cbn [fmap list_fmap existsb]. now rewrite Himp.
      * apply key_eqb_single_str in Heq. subst k'.
        eexists. split; [| exact Hk']. unfold compose.
        now rewrite get_groupby_row_first by discriminate.
Qed.

End ImporterFacts.

Lemma importer_is_raw_name_witness :
  exists r,
    r ∈ rows (unified upload_without_bills)
    /\ Str "ACME" = Str (@clean_importer sample_library (get r "Importer"))
    /\ Str "ACME"
       ∈ ((fun row => get row "Importer")
            <$> rows (@revenue_per_importer sample_library
                        (@derive sample_library
                           (unified upload_without_bills)))).
Proof.
  eexists. split; [| split].
  - eapply list_elem_of_lookup_2 with (i := 0%nat). vm_compute. reflexivity.
  - vm_compute. reflexivity.
  - apply (proj2 (proj2 (proj2 (@importer_is_raw_name sample_library
                                  (unified upload_without_bills))))).
    eexists. split.
    + eapply list_elem_of_lookup_2 with (i := 0%nat). vm_compute. reflexivity.
    + vm_compute. reflexivity.
Defined.

(** ** Greedy clustering of the normalized names *)

Lemma unique_from_fresh seen l x :
  x ∈ unique_from String.eqb seen l -> x ∉ seen.
Proof.
  revert seen. induction l as [| y l IH]; intros seen; simpl.
  - intros Hx. now apply not_elem_of_nil in Hx.
  - destruct (existsb (String.eqb y) seen) eqn:E; [apply IH |].
    rewrite elem_of_cons. intros [-> | Hx].
    + intros Hin. apply list_elem_of_In in Hin.
      assert (existsb (String.eqb y) seen = true); [| congruence].
      apply existsb_exists. exists y. split; [exact Hin | apply String.eqb_refl].
    + apply IH in Hx. rewrite not_elem_of_cons in Hx. tauto.
Qed.

Lemma unique_from_NoDup seen l : NoDup (unique_from String.eqb seen l).
Proof.
  revert seen. induction l as [| y l IH]; intros seen; simpl.
  - constructor.
  - destruct (existsb (String.eqb y) seen); [apply IH |].
    constructor; [| apply IH].
    intros Hin. apply unique_from_fresh in Hin.
    apply Hin. now left.
Qed.

Lemma unique_NoDup l : NoDup (unique l).
Proof. apply unique_from_NoDup. Qed.

Lemma unique_elem_of l x : x ∈ unique l <-> x ∈ l.
Proof.
  split; [apply unique_from_subset |].
  intros Hx. unfold unique, unique_by.
  assert (Hgen : forall seen, x ∉ seen -> x ∈ unique_from String.eqb seen l).
  { induction l as [| y l IH]; intros seen Hseen;
      [now apply not_elem_of_nil in Hx |].
    simpl. destruct (String.eqb_spec y x) as [-> | Hne].
    - destruct (existsb (String.eqb x) seen) eqn:E; [| now left].
      apply existsb_exists in E as (z & Hz & Ez).
      apply String.eqb_eq in Ez. subst z.
      now apply list_elem_of_In in Hz.
    - apply elem_of_cons in Hx as [-> | Hx]; [congruence |].
      destruct (existsb (String.eqb y) seen); [now apply IH |].
      right. apply IH; [exact Hx |].
      rewrite not_elem_of_cons. split; [congruence | exact Hseen]. }
  apply Hgen, not_elem_of_nil.
Qed.

Section ClusterFacts.
Context `{Library}.

Lemma best_so_far query cs : forall best,
  snd best = token_sort_ratio query (fst best) ->
  let found :=
    fold_left
      (fun best choice =>
         let score := token_sort_ratio query choice in
         if Qle_bool score (snd best) then best else (choice, score))
      cs best in
  (fst found = fst best \/ fst found ∈ cs)
  /\ snd found = token_sort_ratio query (fst found)
  /\ (snd best <= snd found)%Q
  /\ forall x, x ∈ cs -> (token_sort_ratio query x <= snd found)%Q.
Proof.
  induction cs as [| c cs IH]; intros best Hbest; simpl.
  - split; [now left |]. split; [exact Hbest |]. split; [apply Qle_refl |].
    intros x Hx. now apply not_elem_of_nil in Hx.
  - destruct (Qle_bool (token_sort_ratio query c) (snd best)) eqn:E.
    + destruct (IH best Hbest) as (Hin & Hscore & Hle & Hmax).
      split; [destruct Hin; [now left | right; now right] |].
      split; [exact Hscore |]. split; [exact Hle |].
      intros x Hx. apply elem_of_cons in Hx as [-> | Hx]; [| now apply Hmax].
      apply Qle_bool_iff in E. eapply Qle_trans; eassumption.
    + destruct (IH (c, token_sort_ratio query c) eq_refl)
        as (Hin & Hscore & Hle & Hmax).
      simpl in Hin, Hle.
      assert (Hlt : (snd best <= token_sort_ratio query c)%Q).
      { apply Qlt_le_weak, Qnot_le_lt. intros Hle'.
        apply Qle_bool_iff in Hle'. congruence. }
      split; [right; destruct Hin as [-> | Hin]; [now left | now right] |].
      split; [exact Hscore |].
      split; [eapply Qle_trans; eassumption |].
      intros x Hx. apply elem_of_cons in Hx as [-> | Hx];
        [exact Hle | now apply Hmax].
Qed.

(** [extractOne] returns a choice of highest score, with its score. *)
Lemma extractOne_best query c cs :
  let found := extractOne query c cs in
  fst found ∈ c :: cs
  /\ snd found = token_sort_ratio query (fst found)
  /\ forall x, x ∈ c :: cs ->
       (token_sort_ratio query x <= snd found)%Q.
Proof.
  destruct (best_so_far query cs (c, token_sort_ratio query c) eq_refl)
    as (Hin & Hscore & Hle & Hmax).
  simpl in Hin, Hle. split; [| split].
  - destruct Hin as [E | Hin]; [unfold extractOne; rewrite E; now left |].
    now right.
  - exact Hscore.
  - intros x Hx. apply elem_of_cons in Hx as [-> | Hx];
      [exact Hle | now apply Hmax].
Qed.

Lemma dedup_step_other t st name other :
  name <> other ->
  snd (dedup_step t st name) !! other = snd st !! other.
Proof.
  intros Hne. unfold dedup_step. destruct (fst st) as [| c cs]; simpl.
  - now rewrite lookup_insert_ne.
  - destruct (Qle_bool t (snd (extractOne name c cs))); simpl;
      now rewrite lookup_insert_ne.
Qed.

Lemma dedup_later t names other : forall st,
  other ∉ names ->
  snd (fold_left (dedup_step t) names st) !! other = snd st !! other.
Proof.
  induction names as [| n names IH]; intros st Hnot; simpl; [reflexivity |].
  rewrite not_elem_of_cons in Hnot. destruct Hnot as [Hne Hnot].
  rewrite IH by exact Hnot. apply dedup_step_other. congruence.
Qed.

Lemma dedup_step_nonempty t st name : fst (dedup_step t st name) <> [].
Proof.
  unfold dedup_step. destruct (fst st) as [| c cs] eqn:E; simpl;
    [discriminate |].
  destruct (Qle_bool t (snd (extractOne name c cs))); simpl;
    rewrite ?E; discriminate.
Qed.

Lemma dedup_loop_nonempty t names :
  names <> [] -> fst (dedup_loop t names) <> [].
Proof.
  unfold dedup_loop. intros Hne.
  destruct (exists_last Hne) as (front & final & ->).
  rewrite fold_left_app. simpl. apply dedup_step_nonempty.
Qed.

(** C3. The loop runs over the distinct normalized names in first-seen
    order, each once.  The first name becomes its own canonical form.
    Each later name has a best match among the canonical forms kept so
    far (none of them scores higher); when the best score is at least 90
    the name is mapped to that form and the forms are unchanged, otherwise
    the name is appended to the forms and mapped to itself. *)
Theorem greedy_clusters (column pre post : list string) (name : string) :
  unique column = pre ++ name :: post ->
  let canon := fst (dedup_loop 90 pre) in
  let canon' := fst (dedup_loop 90 (pre ++ [name])) in
  let mapping := snd (dedup_loop 90 (unique column)) in
  (name ∉ pre) /\ (name ∉ post)
  /\ (pre = [] -> mapping !! name = Some name /\ canon' = [name])
  /\ (pre <> [] ->
      exists best,
        best ∈ canon
        /\ (forall x, x ∈ canon ->
              (token_sort_ratio name x <= token_sort_ratio name best)%Q)
        /\ ((90 <= token_sort_ratio name best)%Q ->
            mapping !! name = Some best /\ canon' = canon)
        /\ ((token_sort_ratio name best < 90)%Q ->
            mapping !! name = Some name /\ canon' = canon ++ [name])).
Proof.
  intros Hsplit canon canon' mapping.
  pose proof (unique_NoDup column) as Hnodup. rewrite Hsplit in Hnodup.
  apply NoDup_app in Hnodup as (_ & Hpre & Hpost).
  apply NoDup_cons in Hpost as [Hpost _].
  assert (Hnpre : name ∉ pre).
  { intros Hin. apply (Hpre name Hin). now left. }
  assert (Hmap : mapping !! name
                 = snd (dedup_step 90 (dedup_loop 90 pre) name) !! name).
  { unfold mapping, dedup_loop. rewrite Hsplit, fold_left_app. simpl.
    now apply dedup_later. }
  assert (Hcanon : canon' = fst (dedup_step 90 (dedup_loop 90 pre) name)).
  { unfold canon', dedup_loop. now rewrite fold_left_app. }
  split; [exact Hnpre |]. split; [exact Hpost |]. split.
  - intros ->. rewrite Hmap, Hcanon. unfold dedup_loop, dedup_step. simpl.
    now rewrite lookup_insert_eq.
  - intros Hne. pose proof (dedup_loop_nonempty 90 pre Hne) as Hcs.
    fold canon in Hcs. rewrite Hmap, Hcanon. unfold dedup_step.
    fold canon. destruct canon as [| c cs]; [contradiction |].
    destruct (extractOne_best name c cs) as (Hin & Hscore & Hmax).
    exists (fst (extractOne name c cs)). rewrite <- Hscore.
    split; [exact Hin |]. split; [exact Hmax |].
    destruct (Qle_bool 90 (snd (extractOne name c cs))) eqn:E; simpl.
    + apply Qle_bool_iff in E. split.
      * intros _. now rewrite lookup_insert_eq.
      * intros Hlt. exfalso. eapply Qlt_not_le; eassumption.
    + split.
      * intros Hle. apply Qle_bool_iff in Hle. congruence.
      * intros _. now rewrite lookup_insert_eq.
Qed.

End ClusterFacts.

Lemma greedy_clusters_witness :
  unique ["ACME CORP"; "GLOBEX INC"; "ACME CORP"]
  = ["ACME CORP"] ++ "GLOBEX INC" :: []
  /\ snd (@dedup_loop sample_library 90
            (unique ["ACME CORP"; "GLOBEX INC"; "ACME CORP"]))
       !! "GLOBEX INC" = Some "GLOBEX INC"
  /\ fst (@dedup_loop sample_library 90 (["ACME CORP"] ++ ["GLOBEX INC"]))
     = ["ACME CORP"; "GLOBEX INC"].
Proof.
  split; [reflexivity |].
  destruct (@greedy_clusters sample_library
              ["ACME CORP"; "GLOBEX INC"; "ACME CORP"]
              ["ACME CORP"] [] "GLOBEX INC" eq_refl)
    as (_ & _ & _ & Hlater).
  destruct (Hlater ltac:(discriminate)) as (best & Hin & _ & _ & Hnew).
  assert (Hbest : best = "ACME CORP").
  { vm_compute in Hin. apply list_elem_of_singleton in Hin. exact Hin. }
  subst best.
  destruct (Hnew ltac:(vm_compute; reflexivity)) as [Hmap Hcanon].
  split; [exact Hmap | exact Hcanon].
Defined.

(** ** File ingestor *)

Lemma ingest_app a b :
  ingest (a ++ b)
  = (fst (ingest a) ++ fst (ingest b), snd (ingest a) ++ snd (ingest b)).
Proof.
  induction a as [| f a IH]; simpl.
  - now destruct (ingest b).
  - rewrite IH. destruct (ingest a) as [ea da], (ingest b) as [eb db]. simpl.
    now destruct (ingest_file f).
Qed.

Lemma ingest_skipped f e rest :
  ingest_file f = Skipped e ->
  ingest (f :: rest) = (e :: fst (ingest rest), snd (ingest rest)).
Proof. intros E. simpl. rewrite E. now destruct (ingest rest). Qed.

Lemma ingest_file_never_success f : ingest_file f <> Skipped Success.
Proof.
  unfold ingest_file. destruct (content f) as [t |]; [| discriminate].
  destruct (is_blank (iloc_drop_first t)); [discriminate |].
  destruct (strip_labels (header (iloc_drop_first t))); [| discriminate].
  destruct (negb (is_nil (missing_columns l))); discriminate.
Qed.

Lemma ingest_all_skipped files :
  (forall f, f ∈ files -> exists e, ingest_file f = Skipped e) ->
  snd (ingest files) = [] /\ Success ∉ fst (ingest files).
Proof.
  induction files as [| f files IH]; intros Hall.
  - split; [reflexivity | apply not_elem_of_nil].
  - destruct (Hall f (list_elem_of_here f files)) as [e He].
    destruct IH as [Hdata Hevents];
      [intros g Hg; apply Hall; now right |].
    rewrite (ingest_skipped f e files He). simpl. split; [exact Hdata |].
    rewrite not_elem_of_cons. split; [| exact Hevents].
    intros <-. now apply (ingest_file_never_success f).
Qed.

Lemma mem_string_false c l : c ∉ l -> mem_string c l = false.
Proof.
  intros Hc. unfold mem_string.
  destruct (existsb (String.eqb c) l) eqn:E; [| reflexivity].
  apply existsb_exists in E as (x & Hx & Ex). apply String.eqb_eq in Ex.
  subst x. now apply list_elem_of_In in Hx.
Qed.

Lemma missing_columns_nonempty cols c :
  c ∈ required_columns -> c ∉ (fst <$> cols) ->
  is_nil (missing_columns cols) = false.
Proof.
  intros Hreq Hmiss.
  assert (Hin : In c (missing_columns cols)).
  { unfold missing_columns. apply filter_In. split.
    - now apply list_elem_of_In.
    - now rewrite mem_string_false. }
  now destruct (missing_columns cols).
Qed.

Section IngestorFacts.
Context `{Library}.

(** C6. When every uploaded file is skipped, [all_data] is empty and the
    script stops: no workbook is produced and no success message is
    shown. *)
Theorem all_skipped_no_output (files : list upload) :
  (forall f, f ∈ files -> exists e, ingest_file f = Skipped e) ->
  snd (ingest files) = []
  /\ snd (run files) = None
  /\ Success ∉ fst (run files).
Proof.
  intros Hall. destruct (ingest_all_skipped files Hall) as [Hdata Hevents].
  split; [exact Hdata |]. unfold run.
  destruct (is_nil files); [split; [reflexivity | apply not_elem_of_nil] |].
  rewrite Hdata. simpl. split; [reflexivity | exact Hevents].
Qed.

(** C7. A file that reads and whose trimmed header lacks a required
    column is skipped with a warning.  The other files are ingested as if
    it had not been uploaded: the same messages around the warning, the
    same unified table, the same workbook. *)
Theorem missing_columns_file_skipped
    (pre post : list upload) (f : upload) (t : table)
    (cols : list (string * dtype)) :
  content f = Some t ->
  strip_labels (header (iloc_drop_first t)) = Some cols ->
  (exists c, c ∈ required_columns /\ c ∉ (fst <$> cols)) ->
  exists e,
    ingest_file f = Skipped e
    /\ is_warning e = true
    /\ ingest (pre ++ f :: post)
       = (fst (ingest pre) ++ e :: fst (ingest post),
          snd (ingest pre) ++ snd (ingest post))
    /\ unified (pre ++ f :: post) = unified (pre ++ post)
    /\ snd (run (pre ++ f :: post)) = snd (run (pre ++ post)).
Proof.
  intros Hcontent Hcols (c & Hreq & Hmiss).
  assert (Hskip : exists e, ingest_file f = Skipped e /\ is_warning e = true).
  { unfold ingest_file. rewrite Hcontent.
    destruct (is_blank (iloc_drop_first t)); [eauto |].
    rewrite Hcols, (missing_columns_nonempty cols c Hreq Hmiss). simpl.
    eauto. }
  destruct Hskip as (e & He & Hwarn). exists e.
  assert (Hingest : ingest (pre ++ f :: post)
                    = (fst (ingest pre) ++ e :: fst (ingest post),
                       snd (ingest pre) ++ snd (ingest post))).
  { rewrite ingest_app, (ingest_skipped f e post He). reflexivity. }
  assert (Hdata : snd (ingest (pre ++ f :: post)) = snd (ingest (pre ++ post))).
  { rewrite Hingest, ingest_app. reflexivity. }
  split; [exact He |]. split; [exact Hwarn |]. split; [exact Hingest |].
  split; [unfold unified; now rewrite Hdata |].
  unfold run. rewrite Hdata.
  assert (Hnil : is_nil (pre ++ f :: post) = false) by now destruct pre.
  rewrite Hnil.
  destruct (is_nil (pre ++ post)) eqn:E.
  - destruct pre, post; try discriminate. reflexivity.
  - now destruct (is_nil (snd (ingest (pre ++ post)))).
Qed.

End IngestorFacts.

Lemma all_skipped_no_output_witness :
  (forall f, f ∈ [upload_missing_quantity; upload_unreadable] ->
     exists e, ingest_file f = Skipped e)
  /\ snd (@run sample_library [upload_missing_quantity; upload_unreadable])
     = None.
Proof.
  assert (Hall : forall f, f ∈ [upload_missing_quantity; upload_unreadable] ->
                   exists e, ingest_file f = Skipped e).
  { intros f Hf. apply elem_of_cons in Hf as [-> | Hf].
    - eexists. vm_compute. reflexivity.
    - apply list_elem_of_singleton in Hf as ->. eexists. vm_compute.
      reflexivity. }
  split; [exact Hall |].
  exact (proj1 (proj2 (@all_skipped_no_output sample_library _ Hall))).
Defined.

Lemma missing_columns_file_skipped_witness :
  content upload_missing_quantity <> None
  /\ "Quantity" ∈ required_columns
  /\ unified
       (upload_without_bills ++ upload_missing_quantity :: upload_without_date)
     = unified (upload_without_bills ++ upload_without_date).
Proof.
  split; [discriminate |].
  split; [do 3 right; now left |].
  destruct (@missing_columns_file_skipped sample_library
              upload_without_bills upload_without_date
              upload_missing_quantity _ _ eq_refl eq_refl)
    as (e & _ & _ & _ & Hunified & _).
  - exists "Quantity". split; [do 3 right; now left |].
    vm_compute. intros Hin.
    repeat (apply elem_of_cons in Hin as [Hin | Hin]; [discriminate |]).
    now apply not_elem_of_nil in Hin.
  - exact Hunified.
Defined.

(** ** Report writer *)

Section SortBy.
Context {A : Type} (leb : A -> A -> bool).
Hypothesis leb_total : forall x y, leb x y = true \/ leb y x = true.
Hypothesis leb_trans :
  forall x y z, leb x y = true -> leb y z = true -> leb x z = true.

Lemma insert_by_sorted x l :
  StronglySorted (fun a b => leb a b = true) l ->
  StronglySorted (fun a b => leb a b = true) (insert_by leb x l).
Proof.
  induction 1 as [| y l Hsorted IH Hall]; simpl.
  - repeat constructor.
  - destruct (leb x y) eqn:E.
    + constructor; [now constructor |].
      constructor; [exact E |].
      eapply Forall_impl; [exact Hall |].
      intros z Hz. simpl in Hz. eapply leb_trans; eassumption.
    + constructor; [exact IH |].
      apply Forall_forall. intros z Hz. apply list_elem_of_In in Hz.
      apply (Permutation_in _ (insert_by_permutation leb x l)) in Hz.
      destruct Hz as [<- | Hz].
      * destruct (leb_total x y) as [E' | E']; [congruence | exact E'].
      * rewrite Forall_forall in Hall. apply Hall.
        now apply list_elem_of_In.
Qed.

Lemma sort_by_sorted l :
  StronglySorted (fun a b => leb a b = true) (sort_by leb l).
Proof.
  induction l as [| x l IH]; simpl; [constructor |].
  now apply insert_by_sorted.
Qed.

End SortBy.

Lemma before_total a b : before a b = true \/ before b a = true.
Proof.
  destruct a as [| s | x | d | l], b as [| t | y | e | m]; simpl; auto.
  destruct (Qle_bool y x) eqn:E; [now left | right].
  apply Qle_bool_iff, Qlt_le_weak, Qnot_le_lt. intros Hle.
  apply Qle_bool_iff in Hle. congruence.
Qed.

Lemma before_trans a b c :
  before a b = true -> before b c = true -> before a c = true.
Proof.
  destruct c as [| u | z | f | n]; try reflexivity.
  destruct b as [| t | y | e | m]; try discriminate.
  destruct a as [| s | x | d | l]; try discriminate.
  simpl. rewrite !Qle_bool_iff. intros Hyx Hzy. eapply Qle_trans; eassumption.
Qed.

Lemma find_first {A} (p : A -> bool) pre x post :
  p x = true -> (forall y, y ∈ pre -> p y = false) ->
  List.find p (pre ++ x :: post) = Some x.
Proof.
  intros Hx. induction pre as [| y pre IH]; intros Hpre; simpl.
  - now rewrite Hx.
  - rewrite (Hpre y (list_elem_of_here y pre)). apply IH.
    intros z Hz. apply Hpre. now right.
Qed.

Lemma find_nothing {A} (p : A -> bool) l :
  (forall y, y ∈ l -> p y = false) -> List.find p l = None.
Proof.
  induction l as [| y l IH]; intros Hl; simpl; [reflexivity |].
  rewrite (Hl y (list_elem_of_here y l)). apply IH.
  intros z Hz. apply Hl. now right.
Qed.

Lemma is_sort_column_qualifies df col :
  is_sort_column df col = true <-> qualifies df col.
Proof.
  unfold is_sort_column, qualifies, is_numeric_dtype.
  rewrite andb_true_iff, existsb_exists. split.
  - intros [(k & Hk & Hcontains) Hd]. split.
    + exists k. split; [now apply list_elem_of_In | exact Hcontains].
    + destruct (col_dtype df col) as [[] |]; try discriminate. reflexivity.
  - intros [(k & Hk & Hcontains) Hd]. split.
    + exists k. split; [now apply list_elem_of_In | exact Hcontains].
    + now rewrite Hd.
Qed.

Lemma not_qualifies df col : ~ qualifies df col -> is_sort_column df col = false.
Proof.
  intros Hnot. destruct (is_sort_column df col) eqn:E; [| reflexivity].
  now apply is_sort_column_qualifies in E.
Qed.

Lemma qualifies_named df col : qualifies df col -> Text.is_empty col = false.
Proof.
  intros [(k & Hk & Hcontains) _]. destruct col; [| reflexivity].
  unfold sort_keywords in Hk.
  repeat (apply elem_of_cons in Hk as [-> | Hk]; [discriminate |]).
  now apply not_elem_of_nil in Hk.
Qed.

Lemma write_sheet_unfold df_sheet drop_columns :
  write_sheet df_sheet drop_columns
  = let input := sheet_input df_sheet drop_columns in
    match List.find (is_sort_column input) (fst <$> columns input) with
    | Some col => if Text.is_empty col then input else sort_values col input
    | None => input
    end.
Proof. reflexivity. Qed.

(** C5. The sheet [write_sheet] writes has the columns of its input.  When
    a column qualifies (a keyword in its lower-cased name, a numeric dtype),
    the rows are those of the input, rearranged in descending order of the
    first such column, missing cells last; when no column qualifies, the
    rows are in their original order. *)
Theorem sheet_sorted_by_first_keyword_column
    (df_sheet : frame) (drop_columns : option (list string)) :
  let input := sheet_input df_sheet drop_columns in
  let out := write_sheet df_sheet drop_columns in
  columns out = columns input
  /\ (forall pre col post,
        fst <$> columns input = pre ++ col :: post ->
        qualifies input col ->
        (forall c, c ∈ pre -> ~ qualifies input c) ->
        Permutation (rows out) (rows input)
        /\ StronglySorted
             (fun r1 r2 => before (get r1 col) (get r2 col) = true)
             (rows out))
  /\ ((forall c, c ∈ (fst <$> columns input) -> ~ qualifies input c) ->
      rows out = rows input).
Proof.
  intros input out. unfold out. rewrite write_sheet_unfold. fold input.
  cbv zeta. split; [| split].
  - destruct (List.find (is_sort_column input) (fst <$> columns input))
      as [col |]; [| reflexivity].
    now destruct (Text.is_empty col).
  - intros pre col post Hsplit Hcol Hpre.
    rewrite Hsplit, (find_first (is_sort_column input) pre col post).
    + rewrite (qualifies_named input col Hcol). unfold sort_values.
      cbn [rows]. split.
      * apply sort_by_permutation.
      * apply (sort_by_sorted
                 (fun r1 r2 => before (get r1 col) (get r2 col))).
        -- intros x y. apply before_total.
        -- intros x y z. apply before_trans.
    + now apply is_sort_column_qualifies.
    + intros c Hc. apply not_qualifies. now apply Hpre.
  - intros Hnone. rewrite find_nothing; [reflexivity |].
    intros c Hc. apply not_qualifies. now apply Hnone.
Qed.

Lemma sheet_sorted_by_first_keyword_column_witness :
  qualifies (sheet_input sample_cost_sheet None) "Total Shipment Cost (USD)"
  /\ (fun r => get r "Total Shipment Cost (USD)")
       <$> rows (write_sheet sample_cost_sheet None)
     = [Num 500; Num 200]
  /\ StronglySorted
       (fun r1 r2 =>
          before (get r1 "Total Shipment Cost (USD)")
                 (get r2 "Total Shipment Cost (USD)") = true)
       (rows (write_sheet sample_cost_sheet None)).
Proof.
  assert (Hq : qualifies (sheet_input sample_cost_sheet None)
                 "Total Shipment Cost (USD)").
  { split; [| reflexivity]. exists "cost". split; [now left | reflexivity]. }
  split; [exact Hq |]. split; [vm_compute; reflexivity |].
  apply (proj1 (proj2 (sheet_sorted_by_first_keyword_column
                         sample_cost_sheet None))
           ["Container Name"] "Total Shipment Cost (USD)" [] eq_refl Hq).
  intros c Hc. apply list_elem_of_singleton in Hc as ->.
  intros [_ Hd]. discriminate.
Defined.

(** ** More on trimming and normalizing *)

Module TrimFacts.
Import Text TextFacts.

Lemma lstrip_idem s : lstrip (lstrip s) = lstrip s.
Proof.
  induction s as [| c s IH]; [reflexivity |].
  simpl. destruct (is_space c) eqn:E; [exact IH |].
  simpl. now rewrite E.
Qed.

Lemma rstrip_cons c r :
  rstrip (String c r)
  = if is_space c && is_empty (rstrip r) then EmptyString
    else String c (rstrip r).
Proof. reflexivity. Qed.

Lemma rstrip_idem s : rstrip (rstrip s) = rstrip s.
Proof.
  induction s as [| c s IH]; [reflexivity |].
  rewrite rstrip_cons.
  destruct (is_space c && is_empty (rstrip s)) eqn:E; [reflexivity |].
  rewrite rstrip_cons, IH, E. reflexivity.
Qed.

Lemma lstrip_rstrip s : lstrip (rstrip s) = rstrip (lstrip s).
Proof.
  induction s as [| c s IH]; [reflexivity |].
  rewrite rstrip_cons. cbn [lstrip].
  destruct (is_space c) eqn:E; cbn [andb].
  - destruct (is_empty (rstrip s)) eqn:Hempty.
    + rewrite <- IH. destruct (rstrip s); [reflexivity | discriminate].
    + cbn [lstrip]. rewrite E. exact IH.
  - cbn [lstrip]. rewrite E, rstrip_cons, E. reflexivity.
Qed.

(** Trimming twice is trimming once. *)
Lemma strip_idem s : strip (strip s) = strip s.
Proof.
  unfold strip. now rewrite (lstrip_rstrip (lstrip s)), lstrip_idem, rstrip_idem.
Qed.

Lemma strip_upper s : strip (upper s) = upper (strip s).
Proof.
  assert (Hl : forall s, lstrip (upper s) = upper (lstrip s)).
  { induction s0 as [| c r IH]; [reflexivity |].
    cbn [upper map_chars lstrip]. rewrite upper_space.
    destruct (is_space c); [exact IH | reflexivity]. }
  assert (Hr : forall s, rstrip (upper s) = upper (rstrip s)).
  { induction s0 as [| c r IH]; [reflexivity |].
    change (upper (String c r)) with (String (upper_char c) (upper r)).
    rewrite !rstrip_cons, upper_space, IH.
    assert (He : is_empty (upper (rstrip r)) = is_empty (rstrip r))
      by now destruct (rstrip r).
    rewrite He. now destruct (is_space c && is_empty (rstrip r)). }
  unfold strip. now rewrite Hl, Hr.
Qed.

Lemma kept_upper_space c :
  is_space c = true ->
  filter_chars in_keep_class (String (upper_char c) EmptyString)
  = (if in_keep_class c then String c EmptyString else EmptyString)
  /\ (in_keep_class c = true -> c = " "%char).
Proof.
  intros Hc. rewrite (space_upper c Hc). split; [reflexivity |].
  now apply space_kept.
Qed.

Lemma lstrip_kept_lstrip s :
  lstrip (strip_class (upper (lstrip s))) = lstrip (strip_class (upper s)).
Proof.
  induction s as [| c r IH]; [reflexivity |].
  cbn [lstrip]. destruct (is_space c) eqn:E; [| reflexivity].
  rewrite IH. unfold strip_class, upper. cbn [map_chars filter_chars].
  rewrite (space_upper c E).
  destruct (in_keep_class c) eqn:Hk; [| reflexivity].
  cbn [lstrip]. now rewrite E.
Qed.

Lemma rstrip_kept_rstrip s :
  rstrip (strip_class (upper (rstrip s))) = rstrip (strip_class (upper s)).
Proof.
  induction s as [| c r IH]; [reflexivity |].
  rewrite rstrip_cons.
  destruct (is_space c && is_empty (rstrip r)) eqn:E.
  - apply andb_true_iff in E as [Hc Hempty].
    assert (Hr : rstrip r = EmptyString) by (destruct (rstrip r); [reflexivity | discriminate]).
    rewrite Hr in IH. cbn in IH.
    unfold strip_class, upper in *. cbn [map_chars filter_chars].
    rewrite (space_upper c Hc).
    destruct (in_keep_class c); [| exact IH].
    rewrite rstrip_cons, <- IH, Hc. reflexivity.
  - unfold strip_class, upper in *. cbn [map_chars filter_chars].
    destruct (in_keep_class (upper_char c)); [| exact IH].
    now rewrite !rstrip_cons, IH.
Qed.

Lemma strip_kept_strip s :
  strip (strip_class (upper (strip s))) = strip (strip_class (upper s)).
Proof.
  unfold strip at 1 3.
  rewrite <- !lstrip_rstrip. unfold strip.
  rewrite rstrip_kept_rstrip, !lstrip_rstrip, lstrip_kept_lstrip.
  reflexivity.
Qed.

Lemma all_chars_filter p s : all_chars p (filter_chars p s) = true.
Proof.
  induction s as [| c r IH]; [reflexivity |].
  simpl. destruct (p c) eqn:E; [simpl; now rewrite E | exact IH].
Qed.

Lemma all_chars_lstrip p s : all_chars p s = true -> all_chars p (lstrip s) = true.
Proof.
  induction s as [| c r IH]; [reflexivity |].
  simpl. destruct (is_space c); [| auto].
  intros E. apply andb_true_iff in E as [_ E]. auto.
Qed.

Lemma all_chars_rstrip p s : all_chars p s = true -> all_chars p (rstrip s) = true.
Proof.
  induction s as [| c r IH]; [reflexivity |].
  rewrite rstrip_cons. cbn [all_chars]. intros E.
  apply andb_true_iff in E as [Ec Er].
  destruct (is_space c && is_empty (rstrip r)); [reflexivity |].
  cbn [all_chars]. now rewrite Ec, IH.
Qed.

Lemma kept_is_upper c : in_keep_class c = true -> upper_char c = c.
Proof. by_cases_on_char c. Qed.

Lemma upper_kept s : all_chars in_keep_class s = true -> upper s = s.
Proof.
  induction s as [| c r IH]; [reflexivity |].
  cbn [all_chars]. intros E. apply andb_true_iff in E as [Ec Er].
  change (upper (String c r)) with (String (upper_char c) (upper r)).
  now rewrite (kept_is_upper c Ec), IH.
Qed.

Lemma strip_class_kept s :
  all_chars in_keep_class s = true -> strip_class s = s.
Proof.
  induction s as [| c r IH]; [reflexivity |].
  cbn [all_chars]. intros E. apply andb_true_iff in E as [Ec Er].
  unfold strip_class in *. cbn [filter_chars]. now rewrite Ec, IH.
Qed.

(** *** Trimming and the sharp s *)

Lemma lstrip_fixed c r : is_space c = false -> lstrip (String c r) = String c r.
Proof. intros Hc. cbn [lstrip]. now rewrite Hc. Qed.

Lemma lstrip_sharp_s s : lstrip (sharp_s_to_SS s) = sharp_s_to_SS (lstrip s).
Proof.
  induction s as [| c r IH]; [reflexivity |].
  cbn [lstrip]. destruct (is_space c) eqn:E.
  - rewrite (sharp_s_cons_other c r (space_not_lead c E)).
    cbn [lstrip]. now rewrite E.
  - destruct (sharp_s_head c r) as (d' & r' & -> & [-> | ->]).
    + now apply lstrip_fixed.
    + now apply lstrip_fixed.
Qed.

Lemma rstrip_sharp_s s : rstrip (sharp_s_to_SS s) = sharp_s_to_SS (rstrip s).
Proof.
  induction s as [| c | c d r IHr IHd] using string_two_step;
    [reflexivity | |].
  - cbn [sharp_s_to_SS]. rewrite rstrip_cons. cbn [rstrip is_empty].
    rewrite andb_true_r. now destruct (is_space c).
  - rewrite sharp_s_cons. destruct (is_sharp_s c d) eqn:E.
    + unfold is_sharp_s in E. apply andb_true_iff in E as [Ec Ed].
      rewrite !(rstrip_cons "S"). cbn [is_space andb].
      change (is_space "S") with false. cbn [andb].
      rewrite IHr, (rstrip_cons c), (rstrip_cons d).
      rewrite (lead_not_space c Ec), (trail_not_space d Ed). cbn [andb].
      rewrite sharp_s_cons. unfold is_sharp_s. now rewrite Ec, Ed.
    + rewrite rstrip_cons, IHd, sharp_s_empty, (rstrip_cons c).
      destruct (is_space c && is_empty (rstrip (String d r)));
        [reflexivity |].
      rewrite sharp_s_cons.
      destruct (rstrip_head d r) as [-> | [r' ->]]; [reflexivity |].
      now rewrite E.
Qed.

Lemma strip_sharp_s s : strip (sharp_s_to_SS s) = sharp_s_to_SS (strip s).
Proof. unfold strip. now rewrite lstrip_sharp_s, rstrip_sharp_s. Qed.

Lemma sharp_s_upper s : sharp_s_to_SS (upper s) = upper (sharp_s_to_SS s).
Proof.
  induction s as [| c | c d r IHr IHd] using string_two_step;
    [reflexivity | reflexivity |].
  change (upper (String c (String d r)))
    with (String (upper_char c) (String (upper_char d) (upper r))).
  rewrite (sharp_s_cons (upper_char c)), (sharp_s_cons c). unfold is_sharp_s.
  rewrite upper_char_lead, upper_char_trail.
  destruct ((nat_of_ascii c =? 195)%nat && (nat_of_ascii d =? 159)%nat).
  - rewrite IHr. reflexivity.
  - change (String (upper_char d) (upper r)) with (upper (String d r)).
    rewrite IHd. reflexivity.
Qed.

Lemma sharp_s_idem s : sharp_s_to_SS (sharp_s_to_SS s) = sharp_s_to_SS s.
Proof.
  induction s as [| c | c d r IHr IHd] using string_two_step;
    [reflexivity | reflexivity |].
  rewrite (sharp_s_cons c). destruct (is_sharp_s c d) eqn:E.
  - rewrite !(sharp_s_cons_other "S") by reflexivity. now rewrite IHr.
  - destruct (sharp_s_head d r) as (d' & r' & Hd & Hd').
    rewrite Hd in *. rewrite (sharp_s_cons c).
    assert (E' : is_sharp_s c d' = false).
    { destruct Hd' as [-> | ->]; [exact E |].
      unfold is_sharp_s. apply andb_false_r. }
    rewrite E'. now rewrite IHd.
Qed.

Lemma sharp_s_kept s :
  all_chars in_keep_class s = true -> sharp_s_to_SS s = s.
Proof.
  intros Hs. apply sharp_s_none.
  eapply all_chars_impl; [apply kept_not_lead | exact Hs].
Qed.

(** [str.upper()] twice is [str.upper()] once, and it commutes with
    [str.strip()]. *)
Lemma str_upper_idem s : str_upper (str_upper s) = str_upper s.
Proof.
  unfold str_upper. now rewrite sharp_s_upper, sharp_s_idem, upper_idem.
Qed.

Lemma strip_str_upper s : strip (str_upper s) = str_upper (strip s).
Proof. unfold str_upper. now rewrite strip_upper, strip_sharp_s. Qed.

End TrimFacts.

Section NormalizeMore.
Context `{Library}.
Import Text TextFacts TrimFacts.

(** X1. The normalized spelling computed from the cleaned importer (line
    29 after line 77) is the normalized spelling of the raw cell: trimming
    and upper-casing first changes nothing. *)
Theorem normalize_name_of_clean_importer (c : cell) :
  normalize_name (Str (clean_importer c)) = normalize_name c.
Proof.
  unfold normalize_name, clean_importer. cbn [astype_str].
  rewrite str_upper_idem. unfold str_upper. rewrite <- strip_sharp_s.
  apply strip_kept_strip.
Qed.

(** X2. A normalized name holds only upper-case letters, digits and
    spaces, has no whitespace at either end, and normalizing it again
    leaves it as it is. *)
Theorem normalize_name_canonical (c : cell) :
  all_chars in_keep_class (normalize_name c) = true
  /\ strip (normalize_name c) = normalize_name c
  /\ normalize_name (Str (normalize_name c)) = normalize_name c.
Proof.
  assert (Hall : all_chars in_keep_class (normalize_name c) = true).
  { unfold normalize_name, strip.
    apply all_chars_rstrip, all_chars_lstrip, all_chars_filter. }
  split; [exact Hall |]. split.
  - unfold normalize_name. apply strip_idem.
  - unfold normalize_name at 1. cbn [astype_str]. unfold str_upper.
    rewrite (sharp_s_kept _ Hall).
    rewrite (upper_kept _ Hall), (strip_class_kept _ Hall).
    unfold normalize_name. apply strip_idem.
Qed.

(** X3. In every derived row the importer and the container name are
    strings without whitespace at either end. *)
Theorem derived_names_trimmed (df : frame) (i : nat) (r : gmap string cell) :
  rows df !! i = Some r ->
  exists r' importer container,
    rows (derive df) !! i = Some r'
    /\ get r' "Importer" = Str importer
    /\ get r' "Container Name" = Str container
    /\ strip importer = importer
    /\ strip container = container.
Proof.
  intros Hr.
  destruct (derive_row df i r Hr) as (r' & Hr' & Himp & _ & _ & Hname & _).
  exists r'. eexists _, _. split; [exact Hr' |].
  split; [exact Himp |]. split; [exact Hname |]. split.
  - unfold clean_importer. now rewrite strip_str_upper, strip_idem.
  - apply strip_idem.
Qed.

End NormalizeMore.

Lemma derived_names_trimmed_witness :
  exists r' importer container,
    rows (@derive sample_library one_importer_frame) !! 0%nat = Some r'
    /\ get r' "Importer" = Str importer
    /\ get r' "Container Name" = Str container
    /\ Text.strip importer = importer
    /\ Text.strip container = container.
Proof.
  exact (@derived_names_trimmed sample_library one_importer_frame 0%nat
           _ eq_refl).
Defined.

(** ** More on distinct values and clusters *)

Lemma unique_from_ext s1 s2 l :
  (forall z, existsb (String.eqb z) s1 = existsb (String.eqb z) s2) ->
  unique_from String.eqb s1 l = unique_from String.eqb s2 l.
Proof.
  revert s1 s2. induction l as [| y l IH]; intros s1 s2 Hs; [reflexivity |].
  simpl. rewrite (Hs y). destruct (existsb (String.eqb y) s2).
  - now apply IH.
  - f_equal. apply IH. intros z. simpl. now rewrite (Hs z).
Qed.

Lemma filter_idem {A} (p : A -> bool) l :
  List.filter p (List.filter p l) = List.filter p l.
Proof.
  induction l as [| x l IH]; [reflexivity |].
  simpl. destruct (p x) eqn:E; [| exact IH].
  simpl. now rewrite E, IH.
Qed.

Lemma unique_from_cons_seen x seen l :
  unique_from String.eqb (x :: seen) l
  = List.filter (fun y => negb (String.eqb x y)) (unique_from String.eqb seen l).
Proof.
  revert seen. induction l as [| y l IH]; intros seen; [reflexivity |].
  cbn [unique_from existsb].
  destruct (existsb (String.eqb y) seen) eqn:Es.
  - rewrite orb_true_r. apply IH.
  - rewrite orb_false_r. destruct (String.eqb y x) eqn:Eyx.
    + apply String.eqb_eq in Eyx. subst y. cbn [List.filter].
      rewrite String.eqb_refl. cbn [negb].
      rewrite IH. now rewrite filter_idem.
    + cbn [List.filter]. rewrite String.eqb_sym, Eyx. cbn [negb]. f_equal.
      rewrite <- IH. apply unique_from_ext. intros z. simpl.
      now rewrite !orb_assoc, (orb_comm (String.eqb z y)).
Qed.

(** [unique] keeps each value once, keeps exactly the values of the
    list, and keeps them in first-seen order: the head comes first, then
    the distinct values of the tail without it. *)
Theorem unique_first_seen (x : string) (l : list string) :
  NoDup (unique (x :: l))
  /\ (forall y, y ∈ unique (x :: l) <-> y ∈ x :: l)
  /\ unique (x :: l)
     = x :: List.filter (fun y => negb (String.eqb x y)) (unique l).
Proof.
  split; [apply unique_NoDup |]. split; [intros y; apply unique_elem_of |].
  unfold unique, unique_by. cbn [unique_from existsb].
  f_equal. apply unique_from_cons_seen.
Qed.

Section ClusterMore.
Context `{Library}.

Lemma first_best_so_far query cs : forall best,
  let found :=
    fold_left
      (fun best choice =>
         let score := token_sort_ratio query choice in
         if Qle_bool score (snd best) then best else (choice, score))
      cs best in
  (found = best
   /\ forall x, x ∈ cs -> (token_sort_ratio query x <= snd best)%Q)
  \/ (exists l1 l2,
        cs = l1 ++ fst found :: l2
        /\ snd found = token_sort_ratio query (fst found)
        /\ (snd best < snd found)%Q
        /\ (forall x, x ∈ l1 -> (token_sort_ratio query x < snd found)%Q)
        /\ (forall x, x ∈ l2 -> (token_sort_ratio query x <= snd found)%Q)).
Proof.
  induction cs as [| c cs IH]; intros best; cbv zeta in *; cbn [fold_left].
  - left. split; [reflexivity |]. intros x Hx. now apply not_elem_of_nil in Hx.
  - destruct (Qle_bool (token_sort_ratio query c) (snd best)) eqn:E;
      lazy iota.
    + apply Qle_bool_iff in E.
      destruct (IH best) as [[Hsame Hle] | (l1 & l2 & Hcs & Hscore & Hlt & H1 & H2)].
      * left. split; [exact Hsame |].
        intros x Hx. apply elem_of_cons in Hx as [-> | Hx]; [exact E | now apply Hle].
      * right. exists (c :: l1), l2. split; [cbn [app]; f_equal; exact Hcs |].
        split; [exact Hscore |]. split; [exact Hlt |]. split; [| exact H2].
        intros x Hx. apply elem_of_cons in Hx as [-> | Hx]; [| now apply H1].
        eapply Qle_lt_trans; eassumption.
    + assert (Hlt : (snd best < token_sort_ratio query c)%Q).
      { apply Qnot_le_lt. intros Hle. apply Qle_bool_iff in Hle. congruence. }
      destruct (IH (c, token_sort_ratio query c))
        as [[Hsame Hle] | (l1 & l2 & Hcs & Hscore & Hlt' & H1 & H2)].
      * right. exists [], cs. rewrite Hsame. cbn [fst snd].
        split; [reflexivity |]. split; [reflexivity |]. split; [exact Hlt |].
        split; [| exact Hle]. intros x Hx. now apply not_elem_of_nil in Hx.
      * right. exists (c :: l1), l2. cbn [snd] in Hlt'.
        split; [cbn [app]; f_equal; exact Hcs |]. split; [exact Hscore |].
        split; [eapply Qlt_trans; eassumption |]. split; [| exact H2].
        intros x Hx. apply elem_of_cons in Hx as [-> | Hx];
          [exact Hlt' | now apply H1].
Qed.

(** [extractOne] returns the first choice of highest score: every
    choice before it scores strictly lower, every choice after it scores no
    higher, and the score returned is the score of the choice returned. *)
Theorem extractOne_first_best (query c : string) (cs : list string) :
  let found := extractOne query c cs in
  exists l1 l2,
    c :: cs = l1 ++ fst found :: l2
    /\ snd found = token_sort_ratio query (fst found)
    /\ (forall x, x ∈ l1 -> (token_sort_ratio query x < snd found)%Q)
    /\ (forall x, x ∈ l2 -> (token_sort_ratio query x <= snd found)%Q).
Proof.
  pose proof (first_best_so_far query cs (c, token_sort_ratio query c)) as Hf.
  unfold extractOne. cbv zeta in *.
  destruct Hf as [[Hsame Hle] | (l1 & l2 & Hcs & Hscore & Hlt & H1 & H2)].
  - rewrite Hsame. exists [], cs. cbn [fst snd].
    split; [reflexivity |]. split; [reflexivity |]. split; [| exact Hle].
    intros x Hx. now apply not_elem_of_nil in Hx.
  - exists (c :: l1), l2. cbn [snd] in Hlt.
    split; [cbn [app]; f_equal; exact Hcs |]. split; [exact Hscore |]. split; [| exact H2].
    intros x Hx. apply elem_of_cons in Hx as [-> | Hx];
      [exact Hlt | now apply H1].
Qed.

(** What the loop keeps true of [(unique_names, name_mapping)] once the
    names of [seen] have been processed. *)
Lemma dedup_step_invariant t (seen : list string) st name :
  name ∉ seen ->
  (forall x, is_Some (snd st !! x) <-> x ∈ seen) ->
  (forall y, y ∈ fst st -> snd st !! y = Some y) ->
  (forall x y, snd st !! x = Some y -> y ∈ fst st) ->
  NoDup (fst st) ->
  let st' := dedup_step t st name in
  (forall x, is_Some (snd st' !! x) <-> x ∈ seen ++ [name])
  /\ (forall y, y ∈ fst st' -> snd st' !! y = Some y)
  /\ (forall x y, snd st' !! x = Some y -> y ∈ fst st')
  /\ NoDup (fst st').
Proof.
  intros Hfresh Hdom Hself Hval Hnodup. cbv zeta.
  assert (Hcanon : forall y, y ∈ fst st -> y <> name).
  { intros y Hy ->. apply Hfresh, Hdom. rewrite (Hself name Hy). eauto. }
  assert (Hdom' : forall v x,
             is_Some (<[name := v]> (snd st) !! x) <-> x ∈ seen ++ [name]).
  { intros v x. rewrite elem_of_app, list_elem_of_singleton, <- Hdom.
    destruct (decide (name = x)) as [-> | Hne].
    - rewrite lookup_insert_eq. split; eauto.
    - rewrite lookup_insert_ne by exact Hne. split; [auto |].
      intros [Hx | ->]; [exact Hx | contradiction]. }
  unfold dedup_step. destruct (fst st) as [| c cs] eqn:Ecanon.
  - cbn [fst snd]. split; [apply Hdom' |]. split; [| split].
    + intros y Hy. apply list_elem_of_singleton in Hy as ->.
      apply lookup_insert_eq.
    + intros x y. destruct (decide (name = x)) as [-> | Hne].
      * rewrite lookup_insert_eq. intros [= <-]. now left.
      * rewrite lookup_insert_ne by exact Hne. intros Hxy.
        apply Hval in Hxy. now apply not_elem_of_nil in Hxy.
    + constructor; [apply not_elem_of_nil | constructor].
  - destruct (extractOne_best name c cs) as (Hbest & _ & _).
    destruct (Qle_bool t (snd (extractOne name c cs))); cbn [fst snd].
    + split; [apply Hdom' |]. split; [| split; [| exact Hnodup]].
      * intros y Hy. rewrite lookup_insert_ne; [now apply Hself |].
        intros ->. now apply (Hcanon y Hy).
      * intros x y. destruct (decide (name = x)) as [-> | Hne].
        -- rewrite lookup_insert_eq. intros [= <-]. exact Hbest.
        -- rewrite lookup_insert_ne by exact Hne. apply Hval.
    + split; [apply Hdom' |]. split; [| split].
      * intros y Hy. apply elem_of_app in Hy as [Hy | Hy].
        -- rewrite lookup_insert_ne; [now apply Hself |].
           intros ->. now apply (Hcanon y Hy).
        -- apply list_elem_of_singleton in Hy as ->. apply lookup_insert_eq.
      * intros x y. destruct (decide (name = x)) as [-> | Hne].
        -- rewrite lookup_insert_eq. intros [= <-].
           apply elem_of_app. right. now left.
        -- rewrite lookup_insert_ne by exact Hne. intros Hxy.
           apply elem_of_app. left. exact (Hval x y Hxy).
      * rewrite NoDup_app. split; [exact Hnodup |].
        split; [| constructor; [apply not_elem_of_nil | constructor]].
        intros y Hy Hy'. apply list_elem_of_singleton in Hy'.
        now apply (Hcanon y Hy).
Qed.

Lemma dedup_loop_invariant t names : forall seen st,
  NoDup (seen ++ names) ->
  (forall x, is_Some (snd st !! x) <-> x ∈ seen) ->
  (forall y, y ∈ fst st -> snd st !! y = Some y) ->
  (forall x y, snd st !! x = Some y -> y ∈ fst st) ->
  NoDup (fst st) ->
  let st' := fold_left (dedup_step t) names st in
  (forall x, is_Some (snd st' !! x) <-> x ∈ seen ++ names)
  /\ (forall y, y ∈ fst st' -> snd st' !! y = Some y)
  /\ (forall x y, snd st' !! x = Some y -> y ∈ fst st')
  /\ NoDup (fst st').
Proof.
  induction names as [| name names IH]; intros seen st Hnd Hdom Hself Hval Hcanon.
  - cbn. rewrite app_nil_r. auto.
  - cbn [fold_left].
    assert (Hfresh : name ∉ seen).
    { apply NoDup_app in Hnd as (_ & Hdisj & _). intros Hin.
      apply (Hdisj name Hin). now left. }
    destruct (dedup_step_invariant t seen st name Hfresh Hdom Hself Hval Hcanon)
      as (Hdom' & Hself' & Hval' & Hcanon').
    replace (seen ++ name :: names) with ((seen ++ [name]) ++ names)
      by now rewrite <- app_assoc.
    apply IH; try assumption. now rewrite <- app_assoc.
Qed.

(** X4. After the loop of [normalize_importer_names] over the distinct
    names of a column, the mapping has an entry exactly for the names of the
    column; every entry points to a canonical form; every canonical form is
    mapped to itself; and no canonical form is kept twice.  So mapping a
    name twice gives the same form as mapping it once. *)
Theorem name_mapping_invariant (t : Q) (column : list string) :
  let unique_names := fst (dedup_loop t (unique column)) in
  let name_mapping := snd (dedup_loop t (unique column)) in
  (forall x, is_Some (name_mapping !! x) <-> x ∈ column)
  /\ (forall x y, name_mapping !! x = Some y ->
        y ∈ unique_names /\ y ∈ column /\ name_mapping !! y = Some y)
  /\ (forall y, y ∈ unique_names -> name_mapping !! y = Some y)
  /\ NoDup unique_names.
Proof.
  cbv zeta. unfold dedup_loop.
  destruct (dedup_loop_invariant t (unique column) [] ([], ∅))
    as (Hdom & Hself & Hval & Hnodup).
  - apply unique_NoDup.
  - intros x. cbn. rewrite lookup_empty. split.
    + intros [? [=]].
    + intros Hx. now apply not_elem_of_nil in Hx.
  - intros y Hy. now apply not_elem_of_nil in Hy.
  - intros x y. cbn. rewrite lookup_empty. discriminate.
  - constructor.
  - cbn [app] in Hdom. split; [| split; [| split; [exact Hself | exact Hnodup]]].
    + intros x. rewrite Hdom. apply unique_elem_of.
    + intros x y Hxy. pose proof (Hval x y Hxy) as Hy.
      split; [exact Hy |]. split; [| now apply Hself].
      apply unique_elem_of, Hdom. rewrite (Hself y Hy). eauto.
Qed.

End ClusterMore.

(** ** More on the file ingestor *)

Lemma has_column_elem_of c df :
  has_column c df = true <-> c ∈ (fst <$> columns df).
Proof.
  unfold has_column. rewrite existsb_exists, list_elem_of_fmap. split.
  - intros (cd & Hin & E). apply String.eqb_eq in E.
    exists cd. split; [now symmetry | now apply list_elem_of_In].
  - intros (cd & -> & Hin). exists cd.
    split; [now apply list_elem_of_In | apply String.eqb_refl].
Qed.

Lemma elem_of_set_dtype c c' d cols :
  c ∈ (fst <$> set_dtype c' d cols) <-> c = c' \/ c ∈ (fst <$> cols).
Proof.
  induction cols as [| [c0 d0] cols IH]; cbn [set_dtype].
  - rewrite fmap_cons, elem_of_cons. cbn. rewrite elem_of_nil. tauto.
  - destruct (String.eqb_spec c0 c') as [-> | Hne].
    + rewrite !fmap_cons, !elem_of_cons. cbn. tauto.
    + rewrite !fmap_cons, !elem_of_cons, IH. cbn. tauto.
Qed.

Lemma has_column_assign c c' d f df :
  has_column c (assign c' d f df) = true
  <-> c = c' \/ has_column c df = true.
Proof.
  rewrite !has_column_elem_of. unfold assign. cbn [columns].
  apply elem_of_set_dtype.
Qed.

Lemma missing_columns_none cols c :
  missing_columns cols = [] -> c ∈ required_columns ->
  c ∈ (fst <$> cols).
Proof.
  intros Hnone Hreq. unfold missing_columns in Hnone.
  destruct (mem_string c (fst <$> cols)) eqn:E.
  - unfold mem_string in E. apply existsb_exists in E as (x & Hx & Ex).
    apply String.eqb_eq in Ex. subst x. now apply list_elem_of_In.
  - assert (Hin : In c (List.filter
                          (fun c => negb (mem_string c (fst <$> cols)))
                          required_columns)).
    { apply filter_In. split; [now apply list_elem_of_In | now rewrite E]. }
    rewrite Hnone in Hin. destruct Hin.
Qed.

(** A file is either skipped, with a warning or an error and never with
    the success message, or accepted; the accepted frame has every required
    column and the column "source_file", holds one row per row of the file,
    at least one, and every row carries the file name under
    "source_file". *)
Lemma ingest_file_shape (f : upload) :
  match ingest_file f with
  | Accepted df =>
      (forall c, c ∈ required_columns -> has_column c df = true)
      /\ has_column "source_file" df = true
      /\ Forall (fun r => get r "source_file" = Str (file_name f)) (rows df)
      /\ exists t,
          content f = Some t
          /\ length (rows df) = length (body t)
          /\ rows df <> []
  | Skipped e => is_warning e = true \/ e = ErrorReading (file_name f)
  end.
Proof.
  unfold ingest_file. destruct (content f) as [t |]; [| now right].
  destruct (is_blank (iloc_drop_first t)) eqn:Hblank; [now left |].
  destruct (strip_labels (header (iloc_drop_first t))) as [cols |];
    [| now right].
  destruct (missing_columns cols) as [| m ms] eqn:Hmissing; cbn [is_nil negb];
    [| now left].
  split; [| split; [| split]].
  - intros c Hc. apply has_column_assign. right.
    apply has_column_elem_of. cbn [columns].
    now apply missing_columns_none.
  - apply has_column_assign. now left.
  - rewrite rows_assign. apply Forall_fmap, Forall_forall. intros r _.
    cbn. apply get_set_cell_eq.
  - exists t. split; [reflexivity |].
    rewrite rows_assign. cbn [rows iloc_drop_first body].
    rewrite !length_fmap. split; [reflexivity |].
    unfold is_blank in Hblank. cbn [iloc_drop_first body] in Hblank.
    destruct (body t); [| discriminate].
    cbn in Hblank. now rewrite orb_true_r in Hblank.
Qed.

(** X5. A file is either skipped, with a warning or an error and never with
    the success message, or accepted; the accepted frame has every required
    column and the column "source_file", holds one row per row of the file,
    at least one, and every row carries the file name under
    "source_file". *)
Theorem ingest_file_outcome (f : upload) :
  match ingest_file f with
  | Accepted df =>
      (forall c, c ∈ required_columns -> has_column c df = true)
      /\ has_column "source_file" df = true
      /\ Forall (fun r => get r "source_file" = Str (file_name f)) (rows df)
      /\ exists t,
          content f = Some t
          /\ length (rows df) = length (body t)
          /\ rows df <> []
  | Skipped e => is_warning e = true \/ e = ErrorReading (file_name f)
  end.
Proof. exact (ingest_file_shape f). Qed.

Lemma ingest_cons f rest :
  ingest (f :: rest)
  = match ingest_file f with
    | Accepted df => (fst (ingest rest), df :: snd (ingest rest))
    | Skipped e => (e :: fst (ingest rest), snd (ingest rest))
    end.
Proof. cbn [ingest]. destruct (ingest rest). now destruct (ingest_file f). Qed.

Lemma ingest_omap (files : list upload) :
  fst (ingest files)
  = omap (fun f => match ingest_file f with
                   | Skipped e => Some e
                   | Accepted _ => None
                   end) files
  /\ snd (ingest files)
     = omap (fun f => match ingest_file f with
                      | Accepted df => Some df
                      | Skipped _ => None
                      end) files.
Proof.
  induction files as [| f files (IHe & IHd)]; [now split |].
  rewrite ingest_cons. cbn [omap list_omap].
  destruct (ingest_file f) as [df | e]; cbn [fst snd];
    rewrite <- IHe, <- IHd; now split.
Qed.

(** X6. The loop gives each file exactly one outcome and keeps the upload
    order: the messages are those of the skipped files, the frames those of
    the accepted files, each in the order of upload. *)
Theorem ingest_in_upload_order (files : list upload) :
  fst (ingest files)
  = omap (fun f => match ingest_file f with
                   | Skipped e => Some e
                   | Accepted _ => None
                   end) files
  /\ snd (ingest files)
     = omap (fun f => match ingest_file f with
                      | Accepted df => Some df
                      | Skipped _ => None
                      end) files
  /\ (length (fst (ingest files)) + length (snd (ingest files)))%nat
     = length files.
Proof.
  destruct (ingest_omap files) as [He Hd]. split; [exact He |].
  split; [exact Hd |]. clear He Hd.
  induction files as [| f files IH]; [reflexivity |].
  rewrite ingest_cons.
  destruct (ingest_file f); cbn [fst snd length]; lia.
Qed.

Lemma ingest_accepted_from files df :
  df ∈ snd (ingest files) ->
  exists f, f ∈ files /\ ingest_file f = Accepted df.
Proof.
  rewrite (proj2 (ingest_omap files)).
  rewrite list_elem_of_omap. intros (f & Hf & E).
  exists f. split; [exact Hf |].
  destruct (ingest_file f); [now injection E as -> | discriminate].
Qed.

Section IngestorMore.
Context `{Library}.

(** X7. A file skipped for any reason leaves no trace in the result: the
    messages of the other files, the unified table and the workbook are
    those of the upload without it. *)
Theorem skipped_file_leaves_no_trace
    (pre post : list upload) (f : upload) (e : event) :
  ingest_file f = Skipped e ->
  fst (ingest (pre ++ f :: post))
  = fst (ingest pre) ++ e :: fst (ingest post)
  /\ unified (pre ++ f :: post) = unified (pre ++ post)
  /\ snd (run (pre ++ f :: post)) = snd (run (pre ++ post)).
Proof.
  intros He.
  assert (Hdata : snd (ingest (pre ++ f :: post)) = snd (ingest (pre ++ post))).
  { rewrite !ingest_app, (ingest_skipped f e post He). reflexivity. }
  split; [now rewrite ingest_app, (ingest_skipped f e post He) |].
  split; [unfold unified; now rewrite Hdata |].
  unfold run. rewrite Hdata.
  assert (Hnil : is_nil (pre ++ f :: post) = false) by now destruct pre.
  rewrite Hnil. destruct (is_nil (pre ++ post)) eqn:E.
  - destruct pre, post; try discriminate. reflexivity.
  - now destruct (is_nil (snd (ingest (pre ++ post)))).
Qed.

End IngestorMore.

Lemma skipped_file_leaves_no_trace_witness :
  ingest_file upload_unreadable = Skipped (ErrorReading "c.xlsx")
  /\ unified ([] ++ upload_unreadable :: upload_without_date)
     = unified ([] ++ upload_without_date).
Proof.
  split; [reflexivity |].
  exact (proj1 (proj2 (@skipped_file_leaves_no_trace sample_library
                         [] upload_without_date upload_unreadable
                         (ErrorReading "c.xlsx") eq_refl))).
Defined.

Lemma names_merge_columns acc cols :
  fst <$> merge_columns acc cols
  = (fst <$> acc)
    ++ List.filter (fun c => negb (mem_string c (fst <$> acc))) (fst <$> cols).
Proof.
  unfold merge_columns. rewrite fmap_app, <- list_fmap_compose, filter_fmap.
  reflexivity.
Qed.

Lemma column_names_merge_columns acc cols c :
  c ∈ (fst <$> merge_columns acc cols)
  <-> c ∈ (fst <$> cols) \/ c ∈ (fst <$> acc).
Proof.
  rewrite names_merge_columns, elem_of_app.
  rewrite (list_elem_of_In (List.filter _ _) c), filter_In.
  rewrite <- list_elem_of_In, negb_true_iff.
  destruct (mem_string c (fst <$> acc)) eqn:E.
  - apply mem_string_elem_of in E. intuition congruence.
  - tauto.
Qed.

Lemma column_names_concat_from dfs acc c :
  c ∈ (fst <$> fold_left (fun acc df => merge_columns acc (columns df))
                 dfs acc)
  <-> (exists df, df ∈ dfs /\ c ∈ (fst <$> columns df)) \/ c ∈ (fst <$> acc).
Proof.
  revert acc. induction dfs as [| df dfs IH]; intros acc; cbn [fold_left].
  - split; [now right |]. intros [(df & Hdf & _) | Hc]; [| exact Hc].
    now apply not_elem_of_nil in Hdf.
  - rewrite IH, column_names_merge_columns. split.
    + intros [(df' & Hdf' & Hc) | [Hc | Hc]].
      * left. exists df'. split; [now right | exact Hc].
      * left. exists df. split; [now left | exact Hc].
      * now right.
    + intros [(df' & Hdf' & Hc) | Hc]; [| now right; right].
      apply elem_of_cons in Hdf' as [-> | Hdf'].
      * right. now left.
      * left. exists df'. now split.
Qed.



(** X9. The columns of the unified table are exactly the columns of the
    accepted frames; in particular, once a file is accepted, every required
    column and "source_file" exist, so the derivation never reads a column
    that is not there. *)
Theorem unified_columns (files : list upload) :
  (forall c,
     has_column c (unified files) = true
     <-> exists df, df ∈ snd (ingest files) /\ has_column c df = true)
  /\ (snd (ingest files) <> [] ->
      forall c, c ∈ "source_file" :: required_columns ->
        has_column c (unified files) = true).
Proof.
  assert (Hcols : forall c,
             has_column c (unified files) = true
             <-> exists df, df ∈ snd (ingest files) /\ has_column c df = true).
  { intros c. rewrite has_column_elem_of. unfold unified, concat.
    cbn [columns]. rewrite column_names_concat_from, fmap_nil, elem_of_nil.
    split.
    - intros [(df & Hdf & Hc) | []]. exists df.
      split; [exact Hdf | now apply has_column_elem_of].
    - intros (df & Hdf & Hc). left. exists df.
      split; [exact Hdf | now apply has_column_elem_of]. }
  split; [exact Hcols |].
  intros Hdata c Hc. apply Hcols.
  destruct (snd (ingest files)) as [| df dfs] eqn:E; [contradiction |].
  exists df. split; [now left |].
  assert (Hin : df ∈ snd (ingest files)) by (rewrite E; now left).
  apply ingest_accepted_from in Hin as (f & _ & Hf).
  pose proof (ingest_file_shape f) as Hshape. rewrite Hf in Hshape.
  destruct Hshape as (Hreq & Hsrc & _).
  apply elem_of_cons in Hc as [-> | Hc]; [exact Hsrc | now apply Hreq].
Qed.

(** X10. Every row of the unified table carries, under "source_file", the
    name of an uploaded file that was accepted. *)
Theorem unified_rows_tagged (files : list upload) :
  Forall
    (fun r =>
       exists f df,
         f ∈ files /\ ingest_file f = Accepted df
         /\ r ∈ rows df /\ get r "source_file" = Str (file_name f))
    (rows (unified files)).
Proof.
  apply Forall_forall. intros r Hr. unfold unified, concat in Hr.
  cbn [rows] in Hr. apply list_elem_of_join in Hr as (rs & Hr & Hrs).
  apply list_elem_of_fmap in Hrs as (df & -> & Hdf).
  apply ingest_accepted_from in Hdf as (f & Hf & Hacc).
  exists f, df. split; [exact Hf |]. split; [exact Hacc |].
  split; [exact Hr |].
  pose proof (ingest_file_shape f) as Hshape. rewrite Hacc in Hshape.
  destruct Hshape as (_ & _ & Htag & _).
  rewrite Forall_forall in Htag. now apply Htag.
Qed.



Section UnifiedDerivation.
Context `{Library}.


End UnifiedDerivation.

(** ** More on the aggregator *)

Lemma single_key_of by_col r :
  key_of [by_col] r
  = if isna (get r by_col) then None else Some [get r by_col].
Proof.
  unfold key_of. cbn [fmap list_fmap existsb]. now rewrite orb_false_r.
Qed.

Lemma group_key_single by_col df k :
  k ∈ group_keys [by_col] df ->
  exists a, k = [a] /\ isna a = false.
Proof.
  intros Hk. apply elem_of_group_keys in Hk as (r & _ & Hkey).
  rewrite single_key_of in Hkey.
  destruct (isna (get r by_col)) eqn:E; [discriminate |].
  injection Hkey as <-. eauto.
Qed.

Lemma filter_ext_elem_of {A} (p q : A -> bool) l :
  (forall x, x ∈ l -> p x = q x) -> List.filter p l = List.filter q l.
Proof.
  intros E. apply List.filter_ext_in. intros x Hx. apply E.
  now apply list_elem_of_In.
Qed.

Lemma single_key_count by_col df r :
  r ∈ rows df -> isna (get r by_col) = false ->
  length (List.filter (fun key => cell_eqb (hd NaN key) (get r by_col))
            (group_keys [by_col] df))
  = 1%nat.
Proof.
  intros Hr Hkey.
  rewrite (filter_ext_elem_of _ (fun key => key_eqb key [get r by_col])).
  - apply (group_keys_count [by_col] df r); [exact Hr |].
    now rewrite single_key_of, Hkey.
  - intros key Hin. apply group_key_single in Hin as (a & -> & _).
    cbn. now rewrite andb_true_r.
Qed.

Lemma get_products_row_first v w key :
  get (<["Products List" := v]>
         (<["Total Products in Container" := w]>
            (to_row ["Container Name"] key))) "Container Name"
  = hd NaN key.
Proof.
  unfold get, to_row. rewrite !lookup_insert_ne by discriminate.
  destruct key as [| a key]; simpl.
  - now rewrite lookup_empty.
  - now rewrite lookup_insert_eq.
Qed.

Section SumFacts.
Context `{Library}.

(** A table summed by one column has exactly one row for the key of a row
    of the input, and that row holds the sum over the rows with that key. *)
Lemma groupby_sum_single_row by_col col out d (r : gmap string cell) :
  out <> by_col ->
  r ∈ rows d ->
  isna (get r by_col) = false ->
  length (List.filter (fun row => same_cell by_col row r)
            (rows (groupby_sum [by_col] col out d))) = 1%nat
  /\ forall row,
       row ∈ rows (groupby_sum [by_col] col out d) ->
       same_cell by_col row r = true ->
       get row out
       = group_sum ((fun x => get x col)
                      <$> List.filter (same_cell by_col r) (rows d)).
Proof.
  intros Hout Hr Hkey. unfold groupby_sum, same_cell. cbn [rows]. split.
  - rewrite filter_fmap, length_fmap.
    rewrite (List.filter_ext _
               (fun key => cell_eqb (hd NaN key) (get r by_col))).
    + now apply single_key_count.
    + intros key. now rewrite get_groupby_row_first by exact Hout.
  - intros row Hrow Hsame.
    apply list_elem_of_fmap in Hrow as (k & -> & Hk).
    apply group_key_single in Hk as (a & -> & Ha).
    rewrite get_groupby_row_first in Hsame by exact Hout. cbn [hd] in Hsame.
    rewrite get_groupby_row_out. f_equal. f_equal.
    unfold group_rows. apply List.filter_ext. intros x.
    unfold in_group. rewrite single_key_of.
    destruct (isna (get x by_col)) eqn:Ex.
    + destruct (get x by_col); try discriminate.
      now rewrite (cell_eqb_missing _ Hkey).
    + cbn [key_eqb]. rewrite andb_true_r.
      apply (eqv_congr cell_eqb cell_eqb_sym
               (fun x y z => cell_eqb_trans x y z)). exact Hsame.
Qed.

(** X11. The total a container has on the "Shipment Cost" sheet is the sum
    pandas gives for the shipment costs of the rows of that container, all
    of them and no other. *)
Theorem shipment_cost_of_container (d : frame) (r : gmap string cell) :
  r ∈ rows d ->
  isna (get r "Container Name") = false ->
  forall row,
    row ∈ rows (shipment_cost_per_container d) ->
    same_cell "Container Name" row r = true ->
    get row "Total Shipment Cost (USD)"
    = group_sum ((fun x => get x "Shipment Cost")
                   <$> List.filter (same_cell "Container Name" r) (rows d)).
Proof.
  intros Hr Hkey.
  apply (groupby_sum_single_row "Container Name" "Shipment Cost"
           "Total Shipment Cost (USD)" d r); [discriminate | exact Hr | exact Hkey].
Qed.

(** X12. The "Total Value per Importer" sheet has exactly one row for the
    importer of any row of the input, and the total on it is the sum pandas
    gives for the values of the rows of that importer, all of them and no
    other. *)
Theorem revenue_of_importer (d : frame) (r : gmap string cell) :
  r ∈ rows d ->
  isna (get r "Importer") = false ->
  length (List.filter (fun row => same_cell "Importer" row r)
            (rows (revenue_per_importer d))) = 1%nat
  /\ forall row,
       row ∈ rows (revenue_per_importer d) ->
       same_cell "Importer" row r = true ->
       get row "Total Value(USD) per Importer"
       = group_sum ((fun x => get x "Value (USD)")
                      <$> List.filter (same_cell "Importer" r) (rows d)).
Proof.
  intros Hr Hkey.
  apply (groupby_sum_single_row "Importer" "Value (USD)"
           "Total Value(USD) per Importer" d r);
    [discriminate | exact Hr | exact Hkey].
Qed.

(** X13. A table grouped by container has exactly one row for the
    container of any row of the input. *)
Theorem one_row_per_container (d : frame) (r : gmap string cell) :
  r ∈ rows d ->
  isna (get r "Container Name") = false ->
  length (List.filter
            (fun row => cell_eqb (get row "Container Name")
                          (get r "Container Name"))
            (rows (shipment_cost_per_container d))) = 1%nat
  /\ length (List.filter
               (fun row => cell_eqb (get row "Container Name")
                             (get r "Container Name"))
               (rows (products_per_container d))) = 1%nat.
Proof.
  intros Hr Hkey. split.
  - unfold shipment_cost_per_container, groupby_sum. cbn [rows].
    rewrite filter_fmap, length_fmap.
    rewrite (List.filter_ext _
               (fun key => cell_eqb (hd NaN key) (get r "Container Name"))).
    + now apply single_key_count.
    + intros key. now rewrite get_groupby_row_first by discriminate.
  - unfold products_per_container. cbn [rows].
    rewrite filter_fmap, length_fmap.
    rewrite (List.filter_ext _
               (fun key => cell_eqb (hd NaN key) (get r "Container Name"))).
    + now apply single_key_count.
    + intros key. now rewrite get_products_row_first.
Qed.

End SumFacts.

Lemma shipment_cost_of_container_witness :
  isna (get (<["Container Name" := Str "MB1"]>
               {[ "Description" := Str "Bolts" ]}) "Container Name") = false
  /\ forall row,
       row ∈ rows (@shipment_cost_per_container sample_library
                     one_container_frame) ->
       same_cell "Container Name" row
         (<["Container Name" := Str "MB1"]> {[ "Description" := Str "Bolts" ]})
       = true ->
       get row "Total Shipment Cost (USD)"
       = @group_sum sample_library
           ((fun x => get x "Shipment Cost")
              <$> List.filter
                    (same_cell "Container Name"
                       (<["Container Name" := Str "MB1"]>
                          {[ "Description" := Str "Bolts" ]}))
                    (rows one_container_frame)).
Proof.
  split; [reflexivity |].
  exact (@shipment_cost_of_container sample_library one_container_frame
           (<["Container Name" := Str "MB1"]>
              {[ "Description" := Str "Bolts" ]})
           (list_elem_of_here _ _) eq_refl).
Defined.

Lemma revenue_of_importer_witness :
  length (List.filter
            (fun row => same_cell "Importer" row {[ "Importer" := Str " acme " ]})
            (rows (@revenue_per_importer sample_library one_importer_frame)))
  = 1%nat.
Proof.
  exact (proj1 (@revenue_of_importer sample_library one_importer_frame
                  {[ "Importer" := Str " acme " ]}
                  (list_elem_of_here _ _) eq_refl)).
Defined.

Lemma one_row_per_container_witness :
  length (List.filter
            (fun row => cell_eqb (get row "Container Name") (Str "MB1"))
            (rows (@shipment_cost_per_container sample_library
                     one_container_frame)))
  = 1%nat.
Proof.
  exact (proj1 (@one_row_per_container sample_library one_container_frame
                  (<["Container Name" := Str "MB1"]>
                     {[ "Description" := Str "Bolts" ]})
                  (list_elem_of_here _ _) eq_refl)).
Defined.

Lemma unique_by_cover {A} (eqv : A -> A -> bool) l x :
  (forall a b, eqv a b = eqv b a) ->
  (forall a b c, eqv a b = true -> eqv b c = true -> eqv a c = true) ->
  (forall a, eqv a a = true) ->
  x ∈ l -> existsb (eqv x) (unique_by eqv l) = true.
Proof.
  intros Hsym Htrans Hrefl Hx.
  assert (Hcount : length (List.filter (fun k => eqv k x) (unique_by eqv l))
                   = 1%nat).
  { apply unique_by_count; [exact Hsym | exact Htrans |].
    apply existsb_exists. exists x.
    split; [now apply list_elem_of_In | apply Hrefl]. }
  destruct (List.filter (fun k => eqv k x) (unique_by eqv l)) as [| y rest] eqn:E;
    [discriminate |].
  assert (Hin : In y (List.filter (fun k => eqv k x) (unique_by eqv l)))
    by (rewrite E; now left).
  apply filter_In in Hin as [Hin Hy].
  apply existsb_exists. exists y. split; [exact Hin |]. now rewrite Hsym.
Qed.

Lemma elem_of_distinct_present c cs :
  c ∈ distinct_present cs -> c ∈ cs /\ isna c = false.
Proof.
  unfold distinct_present, unique_by. intros Hc.
  apply unique_from_subset, list_elem_of_In, filter_In in Hc as [Hin Hna].
  split; [now apply list_elem_of_In | now apply negb_true_iff].
Qed.

Lemma in_group_single by_col key r :
  in_group [by_col] key r = true ->
  exists a, key = [a] /\ cell_eqb a (get r by_col) = true.
Proof.
  unfold in_group. rewrite single_key_of.
  destruct (isna (get r by_col)); [discriminate |].
  destruct key as [| a [| b key]]; try discriminate.
  - cbn. rewrite andb_true_r. eauto.
  - cbn. now rewrite andb_false_r.
Qed.

(** X14. On every row of "Products per Container" the count is the length
    of the product list; the list holds no missing value and no product
    twice; and every product on it is the description of a row of that
    container. *)
Theorem products_list_sound (d : frame) :
  Forall
    (fun row =>
       exists products,
         get row "Products List" = Lst products
         /\ get row "Total Products in Container"
            = Num (inject_Z (Z.of_nat (length products)))
         /\ (forall c, c ∈ products ->
               isna c = false
               /\ length (List.filter (fun x => cell_eqb x c) products) = 1%nat
               /\ exists r,
                   r ∈ rows d
                   /\ cell_eqb (get row "Container Name")
                        (get r "Container Name") = true
                   /\ get r "Description" = c))
    (rows (products_per_container d)).
Proof.
  unfold products_per_container. cbn [rows].
  apply Forall_fmap, Forall_forall. intros key Hkey.
  unfold compose. cbv beta zeta.
  eexists. split; [unfold get; now rewrite lookup_insert_eq |].
  split.
  { unfold get. rewrite lookup_insert_ne by discriminate.
    now rewrite lookup_insert_eq. }
  intros c Hc. pose proof (elem_of_distinct_present _ _ Hc) as [Hin Hna].
  split; [exact Hna |]. split.
  - unfold distinct_present in *.
    apply unique_by_count;
      [apply cell_eqb_sym | intros x y z; apply cell_eqb_trans |].
    apply existsb_exists. exists c. split; [| apply cell_eqb_refl].
    apply list_elem_of_In. apply unique_from_subset in Hc. exact Hc.
  - apply list_elem_of_fmap in Hin as (r & -> & Hr).
    unfold group_rows in Hr. apply list_elem_of_In, filter_In in Hr as [Hr Hg].
    apply in_group_single in Hg as (a & -> & Ha).
    exists r. split; [now apply list_elem_of_In |]. split; [| reflexivity].
    now rewrite get_products_row_first.
Qed.

(** X15. Every description of a row appears, up to equality of group keys,
    on the product list of the row's container. *)
Theorem products_list_complete (d : frame) (r : gmap string cell) :
  r ∈ rows d ->
  isna (get r "Container Name") = false ->
  isna (get r "Description") = false ->
  exists row products,
    row ∈ rows (products_per_container d)
    /\ cell_eqb (get row "Container Name") (get r "Container Name") = true
    /\ get row "Products List" = Lst products
    /\ existsb (cell_eqb (get r "Description")) products = true.
Proof.
  intros Hr Hkey Hdesc.
  destruct (group_keys_cover ["Container Name"] d r [get r "Container Name"] Hr)
    as (key & Hin & Heq); [now rewrite single_key_of, Hkey |].
  eexists _, _. split; [| split; [| split]].
  - unfold products_per_container. cbn [rows].
    apply list_elem_of_fmap. exists key. split; [reflexivity | exact Hin].
  - rewrite get_products_row_first.
    destruct key as [| a [| b key]]; try discriminate.
    + cbn in Heq. now rewrite andb_true_r in Heq.
    + cbn in Heq. now rewrite andb_false_r in Heq.
  - unfold get. now rewrite lookup_insert_eq.
  - unfold distinct_present.
    apply unique_by_cover;
      [apply cell_eqb_sym | intros x y z; apply cell_eqb_trans
      | apply cell_eqb_refl |].
    apply list_elem_of_In, filter_In. split; [| now rewrite Hdesc].
    apply list_elem_of_In, list_elem_of_fmap. exists r.
    split; [reflexivity |].
    unfold group_rows. apply list_elem_of_In, filter_In.
    split; [now apply list_elem_of_In |].
    unfold in_group. now rewrite single_key_of, Hkey.
Qed.

Lemma products_list_complete_witness :
  exists row products,
    row ∈ rows (products_per_container one_container_frame)
    /\ cell_eqb (get row "Container Name") (Str "MB1") = true
    /\ get row "Products List" = Lst products
    /\ existsb (cell_eqb (Str "Bolts")) products = true.
Proof.
  exact (products_list_complete one_container_frame
           (<["Container Name" := Str "MB1"]>
              {[ "Description" := Str "Bolts" ]})
           (list_elem_of_here _ _) eq_refl eq_refl).
Defined.

(** X16. The "Products per Container" sheet has no column to sort by, so
    it is written as the aggregator built it, one row per container in the
    order of the group keys. *)
Theorem products_sheet_unsorted (d : frame) :
  write_sheet (products_per_container d) None = products_per_container d.
Proof.
  rewrite write_sheet_unfold. cbn [sheet_input]. cbv zeta.
  rewrite find_nothing; [reflexivity |].
  intros c Hc. cbn [products_per_container columns fmap list_fmap fst] in Hc.
  unfold is_sort_column.
  repeat (apply elem_of_cons in Hc as [-> | Hc]; [reflexivity |]).
  now apply not_elem_of_nil in Hc.
Qed.

(** ** More on the report writer *)

Lemma columns_write_sheet df_sheet drop_columns :
  columns (write_sheet df_sheet drop_columns)
  = columns (sheet_input df_sheet drop_columns).
Proof.
  rewrite write_sheet_unfold. cbv zeta.
  destruct (List.find _ _) as [col |]; [| reflexivity].
  now destruct (Text.is_empty col).
Qed.

Lemma rows_write_sheet df_sheet drop_columns :
  Permutation (rows (write_sheet df_sheet drop_columns))
    (rows (sheet_input df_sheet drop_columns)).
Proof.
  rewrite write_sheet_unfold. cbv zeta.
  destruct (List.find _ _) as [col |]; [| reflexivity].
  destruct (Text.is_empty col); [reflexivity |].
  apply sort_by_permutation.
Qed.

Lemma mem_string_true c l : mem_string c l = true <-> c ∈ l.
Proof.
  unfold mem_string. rewrite existsb_exists. split.
  - intros (x & Hx & E). apply String.eqb_eq in E. subst x.
    now apply list_elem_of_In.
  - intros Hc. exists c. split; [now apply list_elem_of_In |].
    apply String.eqb_refl.
Qed.

Lemma mem_string_present (p : string -> bool) c l :
  p c = true -> mem_string c (List.filter p l) = mem_string c l.
Proof.
  intros Hp. destruct (mem_string c l) eqn:E.
  - apply mem_string_true. apply mem_string_true in E.
    apply list_elem_of_In, filter_In. split; [now apply list_elem_of_In | exact Hp].
  - destruct (mem_string c (List.filter p l)) eqn:E'; [| reflexivity].
    apply mem_string_true, list_elem_of_In, filter_In in E' as [Hin _].
    apply list_elem_of_In, mem_string_true in Hin. congruence.
Qed.

Lemma column_names_drop cols df :
  fst <$> columns (drop (List.filter (fun c => has_column c df) cols) df)
  = List.filter (fun c => negb (mem_string c cols)) (fst <$> columns df).
Proof.
  unfold drop. cbn [columns]. rewrite filter_fmap. f_equal.
  apply filter_ext_elem_of. intros cd Hcd.
  rewrite (mem_string_present (fun c => has_column c df)); [reflexivity |].
  apply has_column_elem_of, list_elem_of_fmap. exists cd. now split.
Qed.

Lemma lookup_dropped (r : gmap string cell) cols c :
  c ∈ cols -> foldr delete r cols !! c = None.
Proof.
  induction cols as [| c' cols IH]; intros Hc;
    [now apply not_elem_of_nil in Hc |].
  cbn [foldr]. destruct (decide (c' = c)) as [-> | Hne].
  - apply lookup_delete_eq.
  - rewrite lookup_delete_ne by exact Hne. apply IH.
    apply elem_of_cons in Hc as [-> | Hc]; [congruence | exact Hc].
Qed.

(** X17. The "Cleaned Data" sheet has the columns of the derived table
    that are not on the ignore list, in their order, and no row keeps a
    cell of an ignored column.  The list holds the single name
    "Exporter ContactPackaging type", so a column "Exporter Contact" or
    "Packaging type" stays on the sheet. *)
Theorem cleaned_sheet_columns (df : frame) :
  let sheet := write_sheet df (Some ignore_columns_in_cleaned_sheet) in
  fst <$> columns sheet
  = List.filter (fun c => negb (mem_string c ignore_columns_in_cleaned_sheet))
      (fst <$> columns df)
  /\ (forall row c,
        row ∈ rows sheet -> c ∈ ignore_columns_in_cleaned_sheet ->
        has_column c df = true -> row !! c = None)
  /\ (forall c,
        c ∈ ["Exporter Contact"; "Packaging type"] ->
        has_column c df = true -> has_column c sheet = true).
Proof.
  cbv zeta.
  assert (Hinput :
            sheet_input df (Some ignore_columns_in_cleaned_sheet)
            = drop (List.filter (fun c => has_column c df)
                      ignore_columns_in_cleaned_sheet) df) by reflexivity.
  assert (Hnames :
            fst <$> columns (write_sheet df (Some ignore_columns_in_cleaned_sheet))
            = List.filter
                (fun c => negb (mem_string c ignore_columns_in_cleaned_sheet))
                (fst <$> columns df)).
  { rewrite columns_write_sheet, Hinput. apply column_names_drop. }
  split; [exact Hnames |]. split.
  - intros row c Hrow Hc Hpresent.
    apply list_elem_of_In in Hrow.
    apply (Permutation_in _ (rows_write_sheet _ _)) in Hrow.
    apply list_elem_of_In in Hrow. rewrite Hinput in Hrow.
    cbn [drop rows] in Hrow.
    apply list_elem_of_fmap in Hrow as (r & -> & _).
    apply lookup_dropped, list_elem_of_In, filter_In.
    split; [now apply list_elem_of_In | exact Hpresent].
  - intros c Hc Hpresent. apply has_column_elem_of. rewrite Hnames.
    apply list_elem_of_In, filter_In. split.
    + now apply list_elem_of_In, has_column_elem_of.
    + repeat (apply elem_of_cons in Hc as [-> | Hc]; [reflexivity |]).
      now apply not_elem_of_nil in Hc.
Qed.

Section LayoutFacts.
Context `{Library}.

Lemma longest_cell_bound df c r :
  r ∈ rows df ->
  (String.length (astype_str (get r c)) <= longest_cell df c)%nat.
Proof.
  unfold longest_cell. induction (rows df) as [| r' rs IH]; intros Hr;
    [now apply not_elem_of_nil in Hr |].
  rewrite fmap_cons. cbn [foldr].
  apply elem_of_cons in Hr as [-> | Hr]; [lia |].
  specialize (IH Hr). lia.
Qed.

(** X18. The width given to a column is at least five more than the length
    of its header and, unless the column is all missing, than the length
    of the text of each of its cells; a column that is all missing is laid
    out as if its longest cell had ten characters.  A date column gets five
    more. *)
Theorem column_width_fits (df : frame) (value : string) :
  let width := fst (column_layout df value) in
  (String.length value + 5 <= width)%nat
  /\ (column_all_null df value = false ->
      forall r, r ∈ rows df ->
        (String.length (astype_str (get r value)) + 5 <= width)%nat)
  /\ (column_all_null df value = true ->
      width = (Nat.max 10 (String.length value) + 5
               + (if is_datetime_dtype df value then 5 else 0))%nat).
Proof.
  cbv zeta. unfold column_layout. cbv zeta.
  split; [| split].
  - destruct (is_datetime_dtype df value); [cbn [fst]; lia |].
    destruct (_ && _); cbn [fst]; lia.
  - intros Hnull r Hr. rewrite Hnull.
    pose proof (longest_cell_bound df value r Hr) as Hlen.
    destruct (is_datetime_dtype df value); [cbn [fst]; lia |].
    destruct (_ && _); cbn [fst]; lia.
  - intros Hnull. rewrite Hnull.
    destruct (is_datetime_dtype df value); [cbn [fst]; lia |].
    destruct (_ && _); cbn [fst]; lia.
Qed.

Lemma qualifies_same_columns df df' col :
  columns df = columns df' -> qualifies df col -> qualifies df' col.
Proof.
  intros Hcols [Hk Hd]. split; [exact Hk |].
  unfold col_dtype in *. now rewrite <- Hcols.
Qed.

(** X19. On every written sheet, the column the rows are sorted by is
    shown with the thousands-grouped number format, at its plain width. *)
Theorem sort_column_number_format
    (df_sheet : frame) (drop_columns : option (list string))
    (pre post : list string) (col : string) :
  fst <$> columns (sheet_input df_sheet drop_columns) = pre ++ col :: post ->
  qualifies (sheet_input df_sheet drop_columns) col ->
  exists width,
    sheet_layout df_sheet drop_columns !! length pre
    = Some (width, NumberFormat).
Proof.
  intros Hnames Hq.
  assert (Hq' : qualifies (write_sheet df_sheet drop_columns) col).
  { eapply qualifies_same_columns; [| exact Hq].
    symmetry. apply columns_write_sheet. }
  unfold sheet_layout. cbv zeta.
  rewrite columns_write_sheet, Hnames, list_lookup_fmap.
  rewrite list_lookup_middle by reflexivity. cbn [fmap option_fmap option_map].
  apply is_sort_column_qualifies in Hq' as Hsort.
  unfold is_sort_column in Hsort. unfold column_layout.
  destruct Hq' as [_ Hd]. unfold is_datetime_dtype. rewrite Hd, Hsort.
  eexists. reflexivity.
Qed.

End LayoutFacts.

Lemma sort_column_number_format_witness :
  exists width,
    @sheet_layout sample_library sample_cost_sheet None !! 1%nat
    = Some (width, NumberFormat).
Proof.
  apply (@sort_column_number_format sample_library sample_cost_sheet None
           ["Container Name"] [] "Total Shipment Cost (USD)" eq_refl).
  split; [| reflexivity]. exists "cost". split; [now left | reflexivity].
Defined.

(** ** The pipeline end to end *)

Section PipelineFacts.
Context `{Library}.

(** X20. The derivation removes no column and adds exactly the twelve
    derived ones: a name is a column of the derived table when it is a
    derived column or a column of the unified table. *)
Theorem derived_table_columns (df : frame) (c : string) :
  has_column c (derive df) = true
  <-> c ∈ derived_columns \/ has_column c df = true.
Proof.
  unfold derive, derive_fields. rewrite normalize_importer_names_assign.
  rewrite !has_column_assign. unfold derived_columns.
  rewrite !elem_of_cons, elem_of_nil. tauto.
Qed.

Lemma derived_row_keys df r' :
  r' ∈ rows (derive df) ->
  isna (get r' "Container Name") = false /\ isna (get r' "Importer") = false.
Proof.
  intros Hr'. apply list_elem_of_lookup in Hr' as [i Hi].
  assert (Hlt : (i < length (rows df))%nat).
  { rewrite <- length_rows_derive. eapply lookup_lt_Some, Hi. }
  apply lookup_lt_is_Some in Hlt as [r Hr].
  destruct (derive_row df i r Hr) as (r'' & Hr'' & Himp & _ & _ & Hname & _).
  rewrite Hi in Hr''. injection Hr'' as <-.
  now rewrite Himp, Hname.
Qed.

(** X21. No derived row is left out of the two value sheets: each is
    counted in exactly one row of "Shipment Cost", the row of its
    container, and in exactly one row of "Total Value per Importer", the row
    of its importer, and its shipment cost is its numeric-coerced value. *)
Theorem value_sheets_count_every_row
    (df : frame) (i : nat) (r : gmap string cell) :
  rows df !! i = Some r ->
  exists r',
    rows (derive df) !! i = Some r'
    /\ get r' "Shipment Cost" = opt_cell Num (to_numeric (get r "Value(USD)"))
    /\ get r' "Value (USD)" = get r' "Shipment Cost"
    /\ length (List.filter (fun row => same_cell "Container Name" row r')
                 (rows (shipment_cost_per_container (derive df)))) = 1%nat
    /\ length (List.filter (fun row => same_cell "Importer" row r')
                 (rows (revenue_per_importer (derive df)))) = 1%nat.
Proof.
  intros Hr.
  destruct (derive_row df i r Hr)
    as (r' & Hr' & _ & _ & _ & _ & _ & _ & _ & Hv & _ & Hcost & _).
  assert (Hin : r' ∈ rows (derive df)) by (eapply list_elem_of_lookup_2, Hr').
  destruct (derived_row_keys df r' Hin) as [Hname Himp].
  exists r'. split; [exact Hr' |]. split; [now rewrite Hcost |].
  split; [now rewrite Hcost |]. split.
  - apply (groupby_sum_single_row "Container Name" "Shipment Cost"
             "Total Shipment Cost (USD)" (derive df) r');
      [discriminate | exact Hin | exact Hname].
  - apply (groupby_sum_single_row "Importer" "Value (USD)"
             "Total Value(USD) per Importer" (derive df) r');
      [discriminate | exact Hin | exact Himp].
Qed.

Lemma length_rows_concat dfs :
  length (rows (concat dfs)) = sum_list (length <$> (rows <$> dfs)).
Proof.
  unfold concat. cbn [rows]. apply length_join.
Qed.

(** X22. No row is lost or added on the way to the workbook: the "Cleaned
    Data" sheet is the first sheet, and it has as many rows as the accepted
    files have together. *)
Theorem cleaned_sheet_row_count (files : list upload) :
  snd (ingest files) <> [] ->
  exists sheets cleaned,
    snd (run files) = Some sheets
    /\ sheets !! 0%nat = Some ("Cleaned Data", cleaned)
    /\ length (rows cleaned)
       = sum_list (length <$> (rows <$> snd (ingest files))).
Proof.
  intros Hdata. unfold run.
  destruct files as [| f files]; [now contradiction Hdata |].
  cbn [is_nil].
  destruct (snd (ingest (f :: files))) as [| df dfs] eqn:E;
    [now contradiction Hdata |].
  cbn [is_nil]. eexists _, _. split; [reflexivity |].
  split; [reflexivity |].
  rewrite (Permutation_length (rows_write_sheet _ _)).
  assert (Hinput :
            sheet_input (derive (concat (df :: dfs)))
              (Some ignore_columns_in_cleaned_sheet)
            = drop (List.filter
                      (fun c => has_column c (derive (concat (df :: dfs))))
                      ignore_columns_in_cleaned_sheet)
                (derive (concat (df :: dfs)))) by reflexivity.
  rewrite Hinput. cbn [drop rows].
  now rewrite length_fmap, length_rows_derive, length_rows_concat.
Qed.

End PipelineFacts.

Lemma cleaned_sheet_row_count_witness :
  snd (ingest upload_without_date) <> []
  /\ exists sheets cleaned,
      snd (@run sample_library upload_without_date) = Some sheets
      /\ sheets !! 0%nat = Some ("Cleaned Data", cleaned).
Proof.
  assert (Hdata : snd (ingest upload_without_date) <> [])
    by (unfold upload_without_date; rewrite ingest_cons; discriminate).
  split; [exact Hdata |].
  destruct (@cleaned_sheet_row_count sample_library upload_without_date Hdata)
    as (sheets & cleaned & Hrun & Hfirst & _).
  exists sheets, cleaned. split; assumption.
Defined.

Lemma value_sheets_count_every_row_witness :
  exists r',
    rows (@derive sample_library one_importer_frame) !! 0%nat = Some r'
    /\ length (List.filter (fun row => same_cell "Importer" row r')
                 (rows (@revenue_per_importer sample_library
                          (@derive sample_library one_importer_frame))))
       = 1%nat.
Proof.
  destruct (@value_sheets_count_every_row sample_library one_importer_frame
              0%nat _ eq_refl) as (r' & Hr' & _ & _ & _ & Himp).
  exists r'. split; [exact Hr' | exact Himp].
Defined.

(** ** Totals in exact arithmetic *)

Lemma filter_filter_length {A} (p q : A -> bool) l :
  length (List.filter q (List.filter p l))
  = length (List.filter (fun x => p x && q x) l).
Proof.
  induction l as [| x l IH]; simpl; [reflexivity |].
  destruct (p x); simpl; [destruct (q x); simpl; congruence | exact IH].
Qed.

Lemma filter_ext_length {A} (p q : A -> bool) l :
  (forall x, p x = q x) ->
  length (List.filter p l) = length (List.filter q l).
Proof. intros E. now rewrite (List.filter_ext p q E). Qed.

Lemma filter_none_length {A} (l : list A) :
  length (List.filter (fun _ => false) l) = 0%nat.
Proof. induction l; simpl; auto. Qed.

(** Among the keys that satisfy [P], a row falls in exactly one group when
    its own key satisfies [P], and in none otherwise. *)
Lemma group_keys_select by_cols df (P : list cell -> bool) r :
  (forall k k', key_eqb k k' = true -> P k = P k') ->
  r ∈ rows df ->
  length (List.filter (fun k => in_group by_cols k r)
            (List.filter P (group_keys by_cols df)))
  = if match key_of by_cols r with Some k => P k | None => false end
    then 1%nat else 0%nat.
Proof.
  intros HP Hr. rewrite filter_filter_length. unfold in_group.
  destruct (key_of by_cols r) as [k |] eqn:Hk.
  - destruct (P k) eqn:HPk.
    + rewrite (filter_ext_length _ (fun k' => key_eqb k' k)).
      * exact (group_keys_count by_cols df r k Hr Hk).
      * intros k'. destruct (key_eqb k' k) eqn:E.
        -- now rewrite (HP k' k E), HPk.
        -- apply andb_false_r.
    + rewrite (filter_ext_length _ (fun _ => false)).
      * apply filter_none_length.
      * intros k'. destruct (key_eqb k' k) eqn:E.
        -- now rewrite (HP k' k E), HPk.
        -- apply andb_false_r.
  - rewrite (filter_ext_length _ (fun _ => false)).
    + apply filter_none_length.
    + intros k'. apply andb_false_r.
Qed.

Lemma first_key_cell_congr (x : cell) k k' :
  key_eqb k k' = true -> cell_eqb (hd NaN k) x = cell_eqb (hd NaN k') x.
Proof.
  destruct k as [| a k], k' as [| b k']; try discriminate; [reflexivity |].
  simpl. intros E. apply andb_true_iff in E as [E _].
  apply (eqv_congr cell_eqb cell_eqb_sym
           (fun x y z => cell_eqb_trans x y z)); exact E.
Qed.

Lemma exact_sum_cons c l :
  exact_sum (c :: l)
  = match c with Num q => (q + exact_sum l)%Q | _ => exact_sum l end.
Proof. reflexivity. Qed.

Lemma exact_sum_indicator_none {A} (p : A -> bool) c ks :
  length (List.filter p ks) = 0%nat ->
  (exact_sum ((fun k => if p k then c else NaN) <$> ks) == 0)%Q.
Proof.
  induction ks as [| k ks IH]; [reflexivity |].
  rewrite fmap_cons, exact_sum_cons. cbn [List.filter].
  destruct (p k); [discriminate | exact IH].
Qed.

Lemma exact_sum_indicator_one {A} (p : A -> bool) c ks :
  length (List.filter p ks) = 1%nat ->
  (exact_sum ((fun k => if p k then c else NaN) <$> ks) == exact_sum [c])%Q.
Proof.
  induction ks as [| k ks IH]; [discriminate |].
  rewrite fmap_cons, !exact_sum_cons. cbn [List.filter].
  destruct (p k).
  - cbn [length]. intros Hlen. injection Hlen as Hlen.
    pose proof (exact_sum_indicator_none p c ks Hlen) as Hnone.
    destruct c; cbn [exact_sum foldr]; try exact Hnone.
    now rewrite Hnone.
  - intros Hlen. exact (IH Hlen).
Qed.

Section GroupTotals.
Variables (by_cols : list string) (col : string).

Lemma group_totals_nil {A} (ks : list A) :
  (exact_sum ((fun _ => Num (exact_sum [])) <$> ks) == 0)%Q.
Proof.
  induction ks as [| k ks IH]; [reflexivity |].
  rewrite fmap_cons, exact_sum_cons, IH. reflexivity.
Qed.

Lemma group_totals_cons ks r rs :
  (exact_sum ((fun k =>
                 Num (exact_sum ((fun r => get r col)
                                   <$> List.filter (in_group by_cols k)
                                         (r :: rs))))
                <$> ks)
   == exact_sum ((fun k => if in_group by_cols k r then get r col else NaN)
                   <$> ks)
      + exact_sum ((fun k =>
                      Num (exact_sum ((fun r => get r col)
                                        <$> List.filter (in_group by_cols k) rs)))
                     <$> ks))%Q.
Proof.
  induction ks as [| k ks IH]; [reflexivity |].
  rewrite !fmap_cons, !exact_sum_cons, IH. cbn [List.filter].
  destruct (in_group by_cols k r).
  - rewrite fmap_cons, exact_sum_cons. destruct (get r col); ring.
  - ring.
Qed.

(** When every selected row falls in exactly one of the groups [ks], and
    no other row falls in any, the exact group totals add up to the exact
    total of the selected rows. *)
Lemma group_totals ks (sel : gmap string cell -> bool) rs :
  (forall r, r ∈ rs ->
     length (List.filter (fun k => in_group by_cols k r) ks)
     = if sel r then 1%nat else 0%nat) ->
  (exact_sum ((fun k =>
                 Num (exact_sum ((fun r => get r col)
                                   <$> List.filter (in_group by_cols k) rs)))
                <$> ks)
   == exact_sum ((fun r => get r col) <$> List.filter sel rs))%Q.
Proof.
  induction rs as [| r rs IH]; intros Hcount.
  - apply group_totals_nil.
  - rewrite group_totals_cons. rewrite IH
      by (intros r' Hr'; apply Hcount; now right).
    specialize (Hcount r (list_elem_of_here r rs)). cbn [List.filter].
    destruct (sel r).
    + rewrite (exact_sum_indicator_one _ _ _ Hcount).
      rewrite fmap_cons, !exact_sum_cons. destruct (get r col); simpl; ring.
    + rewrite (exact_sum_indicator_none _ _ _ Hcount). ring.
Qed.

End GroupTotals.

Section ExactTotals.
Context `{Library}.

(** Sums that pandas gets right can be replaced by the exact ones. *)
Lemma exact_sum_of_exact_sums {A} (cells : A -> list cell) (ks : list A) :
  (forall k, k ∈ ks -> sums_exactly (cells k)) ->
  (exact_sum ((fun k => group_sum (cells k)) <$> ks)
   == exact_sum ((fun k => Num (exact_sum (cells k))) <$> ks))%Q.
Proof.
  induction ks as [| k ks IH]; intros Hexact; [reflexivity |].
  rewrite !fmap_cons, !exact_sum_cons.
  destruct (Hexact k (list_elem_of_here k ks)) as (q & -> & Hq).
  rewrite IH by (intros k' Hk'; apply Hexact; now right).
  now rewrite Hq.
Qed.

(** X23. Where the sum pandas gives for each group of "Weight per Product"
    is the exact one, the weights on the sheet for a container add up, in
    exact arithmetic, to the weights of the rows of that container that
    have a description. *)
Theorem weight_per_product_exact_total (d : frame) (c : string) :
  (forall k,
     k ∈ group_keys ["Container Name"; "Description"] d ->
     sums_exactly ((fun r => get r "Weight (kgs)")
                     <$> group_rows ["Container Name"; "Description"] k d)) ->
  (exact_sum (container_weights c (weight_per_product d))
   == exact_sum (described_container_weights c d))%Q.
Proof.
  intros Hexact.
  unfold container_weights, described_container_weights, weight_per_product,
    groupby_sum. cbn [rows].
  rewrite filter_fmap, <- list_fmap_compose.
  rewrite (List.filter_ext _ (fun k => cell_eqb (hd NaN k) (Str c))).
  2: { intros k. unfold in_container.
       now rewrite get_groupby_row_first by discriminate. }
  rewrite (list_fmap_ext _
             (fun k => group_sum ((fun r => get r "Weight (kgs)")
                                    <$> group_rows
                                          ["Container Name"; "Description"]
                                          k d))).
  2: { intros i k _. unfold compose. apply get_groupby_row_out. }
  rewrite exact_sum_of_exact_sums.
  2: { intros k Hk. apply Hexact.
       apply list_elem_of_In, filter_In in Hk as [Hk _].
       now apply list_elem_of_In. }
  unfold group_rows. apply group_totals. intros r Hr.
  rewrite group_keys_select;
    [| intros k k'; apply first_key_cell_congr | exact Hr].
  unfold key_of, in_container. cbn [fmap list_fmap existsb hd].
  destruct (get r "Container Name"), (get r "Description");
    cbn [isna orb negb hd]; rewrite ?andb_false_r, ?andb_true_r; reflexivity.
Qed.

End ExactTotals.

Lemma weight_per_product_exact_total_witness :
  (exact_sum (container_weights "MB1"
                (@weight_per_product sample_library weighed_frame))
   == exact_sum (described_container_weights "MB1" weighed_frame))%Q
  /\ (exact_sum (described_container_weights "MB1" weighed_frame) == 12)%Q
  /\ (exact_sum (container_weights "MB1" weighed_frame) == 13)%Q.
Proof.
  split; [| split; vm_compute; reflexivity].
  apply (@weight_per_product_exact_total sample_library weighed_frame).
  intros k _. eexists. split; reflexivity.
Defined.
